(** * pyrpl.memory: the MemoryBranch / MemoryTree settings store

    A shallow embedding of [pyrpl/memory.py].  Python objects that are
    mutated through several references (the nested dicts of the tree, the
    class attribute [MemoryTree._data], the tree instances) live in an
    explicit store; every method is a function of that store in a small
    state-and-exception monad.

    Conventions
    - clock readings ([time()]) are integers in milliseconds, the
      granularity of [QTimer]; a duration written in seconds in the source
      ([_loadsavedeadtime = 3], [deadtime=-1]) is multiplied by [1000]
      where it is compared with the clock;
    - one method call reads the clock once: the successive [time()] calls
      of one call return the same instant [now];
    - a step of the write sequence of [_save] fails when the environment
      of the call says so ([fault]); the other file operations fail only
      on a missing file;
    - logging calls have no effect on the store and are left out;
    - the entries the source writes into [__dict__] for tab completion
      ([self.__dict__[k] = None]) are left out: no method modelled here
      reads them back, as long as [k] is not the name of an attribute of
      the object ([_parent], [_branch], [_filename], ...);
    - the YAML library, [os.path] and the configuration directories of
      the package are parameters. *)

From Stdlib Require Import ZArith String Ascii.
From stdpp Require Import base option list gmap strings pretty.

Open Scope Z_scope.

Set Warnings "-register-all".

(** ** Values, dicts and the object store *)

(** Leaves of the configuration tree. *)
Inductive scalar :=
| SNone
| SBool (b : bool)
| SInt (z : Z)
| SStr (s : string).

(** A Python value as the store sees it: a scalar, or a reference to a
    dict object ([OrderedDict], [CommentedMap], [dict]). *)
Abbreviation addr := nat.

Inductive value :=
| VScalar (s : scalar)
| VDict (a : addr).

(** An ordered mapping: insertion order is kept, a key occurs once. *)
Abbreviation pydict := (list (string * value)).

(** The parsed form of a document, before its mappings become objects. *)
Inductive Node :=
| Leaf (s : scalar)
| Submapping (items : list (string * Node)).

#[global] Instance scalar_eq_dec : EqDecision scalar.
Proof. solve_decision. Defined.

#[global] Instance value_eq_dec : EqDecision value.
Proof. solve_decision. Defined.

(** [isbranch(obj)]: [isinstance(obj, dict)]. *)
Definition isbranch (obj : value) : bool :=
  match obj with VDict _ => true | VScalar _ => false end.

(** [name.startswith('_')] *)
Definition is_private (name : string) : bool := String.prefix "_" name.

(** [d[k]] on the items of a dict; [None] stands for [KeyError]. *)
Fixpoint dict_get (d : pydict) (k : string) : option value :=
  match d with
  | [] => None
  | (k', v) :: d' => if decide (k' = k) then Some v else dict_get d' k
  end.

(** [d[k] = v]: overwrite in place, or append a new key. *)
Fixpoint dict_set (d : pydict) (k : string) (v : value) : pydict :=
  match d with
  | [] => [(k, v)]
  | (k', v') :: d' =>
      if decide (k' = k) then (k, v) :: d' else (k', v') :: dict_set d' k v
  end.

(** the items left by [d.pop(k)] *)
Fixpoint dict_del (d : pydict) (k : string) : pydict :=
  match d with
  | [] => []
  | (k', v') :: d' =>
      if decide (k' = k) then d' else (k', v') :: dict_del d' k
  end.

(** [d.update(items)] *)
Definition dict_update (d : pydict) (items : pydict) : pydict :=
  fold_left (fun acc kv => dict_set acc kv.1 kv.2) items d.

(** [k in s] for a [str]: substring test. *)
Fixpoint is_substring (k s : string) : bool :=
  String.prefix k s ||
  match s with
  | EmptyString => false
  | String _ s' => is_substring k s'
  end.

(** [s.endswith(suffix)] *)
Definition endswith (s suffix : string) : bool :=
  String.prefix (String.rev suffix) (String.rev s).

(** ** Files *)

Record file := File { content : string; mtime : Z }.

(** ** The deferred-save timer *)

(** A [QTimer]: [started] is the instant of the last [start()] while the
    timer is active. *)
Record QTimer := Timer {
  interval : Z;
  singleShot : bool;
  started : option Z
}.

Definition isActive (tm : QTimer) : bool :=
  match started tm with Some _ => true | None => false end.

Definition start (now : Z) (tm : QTimer) : QTimer :=
  Timer (interval tm) (singleShot tm) (Some now).

Definition stop (tm : QTimer) : QTimer :=
  Timer (interval tm) (singleShot tm) None.

(** ** Branches and trees *)

Abbreviation tree_id := nat.

(** A [MemoryBranch] object: [_parent], [_branch], [_defaults].  A
    [MemoryTree] is the branch that is its own parent, with name [""];
    its state lives in the store under its identity. *)
Inductive MemoryBranch :=
| Tree (t : tree_id)
| Branch (_parent : MemoryBranch) (_branch : string)
         (_defaults : list MemoryBranch).

(** The instance attributes of a [MemoryTree].  An attribute that
    [__init__] or [_load] has not set is [None] here and reading it raises
    [AttributeError]; [inst_data] is the instance attribute [_data], and
    while it is unset the lookup falls back to the class attribute
    [MemoryTree._data]. *)
Record MemoryTree := MkTree {
  _filename : option string;
  _lastsave : option Z;
  _buffer_filename : option string;
  _savetimer : option QTimer;
  inst_data : option value;
  _mtime : option Z;
  _lastreload : option Z;
  _loadsavedeadtime : Z;
  _save_counter : Z;
  tree_defaults : list MemoryBranch
}.

(** The store: dict objects by address, the class attribute
    [MemoryTree._data], the file system and the tree instances. *)
Record world := World {
  heap : list pydict;
  class_data : value;
  fs : gmap string file;
  trees : list MemoryTree
}.

(** What a call reads from its environment: the clock, and the step of
    the write sequence of [_save] that fails, if one does. *)
Inductive Fault :=
| FailOpen                       (* open(tmp, 'w') *)
| FailDump (partial : string)    (* save / flush / fsync / close *)
| FailUnlink                     (* os.unlink(target) *)
| FailRename.                    (* os.rename(tmp, target) *)

Record Env := MkEnv { now : Z; fault : option Fault }.

(** ** Exceptions and the monad *)

Inductive exn :=
| KeyError
| TypeError
| ValueError
| AttributeError
| OSError
| YAMLError.

Inductive outcome (A : Type) :=
| Ret (a : A)
| Raise (e : exn).
Arguments Ret {A} a.
Arguments Raise {A} e.

Definition M (A : Type) : Type := world -> world * outcome A.

Definition ret {A} (a : A) : M A := fun w => (w, Ret a).

Definition raise {A} (e : exn) : M A := fun w => (w, Raise e).

Definition bind {A B} (m : M A) (k : A -> M B) : M B :=
  fun w =>
    match m w with
    | (w', Ret a) => k a w'
    | (w', Raise e) => (w', Raise e)
    end.

(** [try: m  except: h; raise] *)
Definition try_reraise {A} (m : M A) (h : M unit) : M A :=
  fun w =>
    match m w with
    | (w', Ret a) => (w', Ret a)
    | (w', Raise e) =>
        match h w' with
        | (w'', Ret _) => (w'', Raise e)
        | (w'', Raise e') => (w'', Raise e')
        end
    end.

Notation "x <~ m ;; k" := (bind m (fun x => k))
  (at level 100, m at next level, right associativity).
Notation "m ;;; k" := (bind m (fun _ => k))
  (at level 100, right associativity).

Definition get_world : M world := fun w => (w, Ret w).

Definition modify (f : world -> world) : M unit := fun w => (f w, Ret tt).

(** reading an attribute that may not have been set *)
Definition attr {A} (o : option A) : M A :=
  match o with
  | Some a => ret a
  | None => raise AttributeError
  end.

(** ** Primitive operations on the store *)

Definition set_heap (h : list pydict) (w : world) : world :=
  World h (class_data w) (fs w) (trees w).

Definition set_fs (f : gmap string file) (w : world) : world :=
  World (heap w) (class_data w) f (trees w).

Definition set_trees (ts : list MemoryTree) (w : world) : world :=
  World (heap w) (class_data w) (fs w) ts.

(** [obj[k]] *)
Definition subscript (obj : value) (k : string) : M value :=
  fun w =>
    match obj with
    | VDict a =>
        match heap w !! a with
        | Some d =>
            match dict_get d k with
            | Some v => (w, Ret v)
            | None => (w, Raise KeyError)
            end
        | None => (w, Raise TypeError)
        end
    | VScalar _ => (w, Raise TypeError)
    end.

(** [k in obj] *)
Definition contains (obj : value) (k : string) : M bool :=
  fun w =>
    match obj with
    | VDict a =>
        match heap w !! a with
        | Some d => (w, Ret (bool_decide (is_Some (dict_get d k))))
        | None => (w, Raise TypeError)
        end
    | VScalar (SStr s) => (w, Ret (is_substring k s))
    | VScalar _ => (w, Raise TypeError)
    end.

(** [obj[k] = v] *)
Definition store (obj : value) (k : string) (v : value) : M unit :=
  fun w =>
    match obj with
    | VDict a =>
        match heap w !! a with
        | Some d => (set_heap (<[a := dict_set d k v]> (heap w)) w, Ret tt)
        | None => (w, Raise TypeError)
        end
    | VScalar _ => (w, Raise TypeError)
    end.

(** [obj.pop(k)] *)
Definition pop (obj : value) (k : string) : M value :=
  fun w =>
    match obj with
    | VDict a =>
        match heap w !! a with
        | Some d =>
            match dict_get d k with
            | Some v => (set_heap (<[a := dict_del d k]> (heap w)) w, Ret v)
            | None => (w, Raise KeyError)
            end
        | None => (w, Raise AttributeError)
        end
    | VScalar _ => (w, Raise AttributeError)
    end.

(** [obj.update(items)] *)
Definition update (obj : value) (items : pydict) : M unit :=
  fun w =>
    match obj with
    | VDict a =>
        match heap w !! a with
        | Some d => (set_heap (<[a := dict_update d items]> (heap w)) w, Ret tt)
        | None => (w, Raise AttributeError)
        end
    | VScalar _ => (w, Raise AttributeError)
    end.

(** a new dict object holding [items] *)
Definition new_dict (items : pydict) : M value :=
  fun w => (set_heap (heap w ++ [items]) w, Ret (VDict (length (heap w)))).

(** [dict(obj)]: a new dict with the items of [obj] (a shallow copy). *)
Definition dict_copy (obj : value) : M value :=
  fun w =>
    match obj with
    | VDict a =>
        match heap w !! a with
        | Some d => new_dict d w
        | None => (w, Raise TypeError)
        end
    | VScalar _ => (w, Raise TypeError)
    end.

(** The objects built by the loader for a parsed document: one new dict
    per mapping, children first. *)
Fixpoint alloc_node (n : Node) (h : list pydict) : list pydict * value :=
  match n with
  | Leaf s => (h, VScalar s)
  | Submapping items =>
      let fix alloc_items (l : list (string * Node)) (h : list pydict)
          (acc : pydict) : list pydict * pydict :=
        match l with
        | [] => (h, acc)
        | (k, c) :: r =>
            let '(h1, v) := alloc_node c h in
            alloc_items r h1 (dict_set acc k v)
        end in
      let '(h', d) := alloc_items items h [] in
      (h' ++ [d], VDict (length h'))
  end.

Definition build (n : Node) : M value :=
  fun w => let '(h, v) := alloc_node n (heap w) in (set_heap h w, Ret v).

(** *** Files *)

(** [os.path.isfile(p)] *)
Definition isfile (p : string) : M bool :=
  fun w => (w, Ret (bool_decide (is_Some (fs w !! p)))).

(** [os.path.getmtime(p)] *)
Definition getmtime (p : string) : M Z :=
  fun w =>
    match fs w !! p with
    | Some f => (w, Ret (mtime f))
    | None => (w, Raise OSError)
    end.

(** [open(p).read()] *)
Definition read_file (p : string) : M string :=
  fun w =>
    match fs w !! p with
    | Some f => (w, Ret (content f))
    | None => (w, Raise OSError)
    end.

(** writing [s] to [p] at instant [t] (creating or truncating [p]) *)
Definition write_file (p : string) (s : string) (t : Z) : M unit :=
  modify (fun w => set_fs (<[p := File s t]> (fs w)) w).

(** [shutil.copyfile(src, dst)] *)
Definition copyfile (src dst : string) (t : Z) : M unit :=
  s <~ read_file src ;; write_file dst s t.

(** [os.unlink(p)] *)
Definition unlink (p : string) : M unit :=
  fun w =>
    match fs w !! p with
    | Some _ => (set_fs (delete p (fs w)) w, Ret tt)
    | None => (w, Raise OSError)
    end.

(** [os.rename(src, dst)] *)
Definition rename (src dst : string) : M unit :=
  fun w =>
    match fs w !! src with
    | Some f => (set_fs (<[dst := f]> (delete src (fs w))) w, Ret tt)
    | None => (w, Raise OSError)
    end.

(** *** Tree instances *)

Definition get_tree (t : tree_id) : M MemoryTree :=
  fun w =>
    match trees w !! t with
    | Some T => (w, Ret T)
    | None => (w, Raise AttributeError)
    end.

Definition set_tree (t : tree_id) (f : MemoryTree -> MemoryTree) : M unit :=
  fun w =>
    match trees w !! t with
    | Some T => (set_trees (<[t := f T]> (trees w)) w, Ret tt)
    | None => (w, Raise AttributeError)
    end.

Definition with_lastsave (x : Z) (T : MemoryTree) : MemoryTree :=
  MkTree (_filename T) (Some x) (_buffer_filename T) (_savetimer T)
         (inst_data T) (_mtime T) (_lastreload T) (_loadsavedeadtime T)
         (_save_counter T) (tree_defaults T).

Definition with_savetimer (tm : QTimer) (T : MemoryTree) : MemoryTree :=
  MkTree (_filename T) (_lastsave T) (_buffer_filename T) (Some tm)
         (inst_data T) (_mtime T) (_lastreload T) (_loadsavedeadtime T)
         (_save_counter T) (tree_defaults T).

Definition with_data (v : value) (T : MemoryTree) : MemoryTree :=
  MkTree (_filename T) (_lastsave T) (_buffer_filename T) (_savetimer T)
         (Some v) (_mtime T) (_lastreload T) (_loadsavedeadtime T)
         (_save_counter T) (tree_defaults T).

Definition with_mtime (x : Z) (T : MemoryTree) : MemoryTree :=
  MkTree (_filename T) (_lastsave T) (_buffer_filename T) (_savetimer T)
         (inst_data T) (Some x) (_lastreload T) (_loadsavedeadtime T)
         (_save_counter T) (tree_defaults T).

Definition with_lastreload (x : Z) (T : MemoryTree) : MemoryTree :=
  MkTree (_filename T) (_lastsave T) (_buffer_filename T) (_savetimer T)
         (inst_data T) (_mtime T) (Some x) (_loadsavedeadtime T)
         (_save_counter T) (tree_defaults T).

Definition with_save_counter (x : Z) (T : MemoryTree) : MemoryTree :=
  MkTree (_filename T) (_lastsave T) (_buffer_filename T) (_savetimer T)
         (inst_data T) (_mtime T) (_lastreload T) (_loadsavedeadtime T)
         x (tree_defaults T).

Definition with_defaults (ds : list MemoryBranch) (T : MemoryTree)
  : MemoryTree :=
  MkTree (_filename T) (_lastsave T) (_buffer_filename T) (_savetimer T)
         (inst_data T) (_mtime T) (_lastreload T) (_loadsavedeadtime T)
         (_save_counter T) ds.

(** [tree._data]: the instance attribute when it is set, the class
    attribute [MemoryTree._data] otherwise. *)
Definition tree_data (t : tree_id) : M value :=
  fun w =>
    match trees w !! t with
    | Some T =>
        match inst_data T with
        | Some v => (w, Ret v)
        | None => (w, Ret (class_data w))
        end
    | None => (w, Raise AttributeError)
    end.

Definition lift {A} (r : outcome A) : M A := fun w => (w, r).

(** [{}.update(obj)], as [_load] and the [_defaults] setter apply it to
    the data of the tree: a mapping or an empty string passes, another
    string raises [ValueError], any other scalar [TypeError]. *)
Definition update_from (obj : value) : M unit :=
  match obj with
  | VDict _ => ret tt
  | VScalar (SStr EmptyString) => ret tt
  | VScalar (SStr _) => raise ValueError
  | VScalar _ => raise TypeError
  end.

(** [try: m  except KeyError: h] *)
Definition except_KeyError {A} (m : M A) (h : M A) : M A :=
  fun w =>
    match m w with
    | (w', Raise KeyError) => h w'
    | r => r
    end.

Section Memory.

(** The serialization backend ([ruamel.yaml], or [yaml]): [load] parses
    a document or raises, [save] renders the objects reachable from a
    value or raises. *)
Variable load : string -> outcome Node.
Variable save : list pydict -> value -> outcome string.

(** The configuration directories of the package and the two functions
    of [os.path] used to locate a file. *)
Variable user_config_dir default_config_dir : string.
Variable path_split : string -> string * string.
Variable path_join : string -> string -> string.

(** ** Locating the configuration file *)

(** the loop of [_get_filename]: the first of [paths] in which [f] is a
    file *)
Fixpoint first_isfile (paths : list string) (f : string) (fallback : string)
  : M string :=
  match paths with
  | [] => ret fallback
  | path :: rest =>
      let file := path_join path f in
      b <~ isfile file ;;
      if b : bool then ret file else first_isfile rest f fallback
  end.

(** [_get_filename] (l. 107-122), for a file name given as a string *)
Definition _get_filename (filename : string) : M string :=
  let filename :=
    if endswith filename ".yml" then filename else (filename +:+ ".yml")%string in
  let '(p, f) := path_split filename in
  first_isfile [p; user_config_dir; default_config_dir] f
               (path_join user_config_dir f).

(** [get_config_file] (l. 125-153); [open(filename, mode="w")] leaves an
    empty file *)
Definition get_config_file (filename source : option string) (env : Env)
  : M (option string) :=
  match filename with
  | None => ret None
  | Some filename =>
      filename <~ _get_filename filename ;;
      found <~ isfile filename ;;
      if found : bool then
        let '(p, f) := path_split filename in
        if decide (p = default_config_dir) then
          let dest := path_join user_config_dir f in
          copyfile filename dest (now env) ;;;
          ret (Some dest)
        else ret (Some filename)
      else
        let create :=
          write_file filename "" (now env) ;;; ret (Some filename) in
        match source with
        | Some source =>
            source <~ _get_filename source ;;
            found <~ isfile source ;;
            if found : bool then
              copyfile source filename (now env) ;;;
              ret (Some filename)
            else create
        | None => create
        end
  end.

(** ** MemoryTree *)

(** [MemoryTree._load] (l. 445-470).  The last step stands for
    [self.__dict__.update(self._data)], which raises unless the data is a
    mapping. *)
Definition MemoryTree__load (t : tree_id) (env : Env) : M unit :=
  T <~ get_tree t ;;
  match _filename T with
  | None => ret tt
  | Some f =>
      s <~ read_file f ;;
      n <~ lift (load s) ;;
      v <~ build n ;;
      set_tree t (with_data v) ;;;
      m <~ getmtime f ;;
      set_tree t (with_mtime m) ;;;
      set_tree t (with_lastreload (now env)) ;;;
      (if decide (v = VScalar SNone)
       then (e <~ new_dict [] ;; set_tree t (with_data e))
       else ret tt) ;;;
      data <~ tree_data t ;;
      update_from data
  end.

(** [MemoryTree._reload] (l. 472-487) *)
Definition MemoryTree__reload (t : tree_id) (env : Env) : M unit :=
  T <~ get_tree t ;;
  match _filename T with
  | None => ret tt
  | Some f =>
      lr <~ attr (_lastreload T) ;;
      if lr + _loadsavedeadtime T * 1000 <? now env then
        set_tree t (with_lastreload (now env)) ;;;
        m <~ attr (_mtime T) ;;
        m' <~ getmtime f ;;
        if decide (m = m') then ret tt else MemoryTree__load t env
      else ret tt
  end.

(** The body of the [try] block of [_save] (l. 509-519): write the
    buffer file, then replace the target by it.  [fault env] names the
    step that raises; a dump that fails leaves [partial] in the buffer
    file. *)
Definition write_sequence (t : tree_id) (f buf : string) (env : Env)
  : M unit :=
  match fault env with
  | Some FailOpen => raise OSError
  | _ =>
      write_file buf "" (now env) ;;;
      data <~ tree_data t ;;
      match fault env with
      | Some (FailDump partial) =>
          write_file buf partial (now env) ;;; raise OSError
      | _ =>
          w <~ get_world ;;
          s <~ lift (save (heap w) data) ;;
          write_file buf s (now env) ;;;
          match fault env with
          | Some FailUnlink => raise OSError
          | _ =>
              unlink f ;;;
              match fault env with
              | Some FailRename => raise OSError
              | _ => rename buf f
              end
          end
      end
  end.

(** [MemoryTree._save] (l. 493-527), the second and effective definition
    of the name.  The comparison of [_mtime] with the file only logs a
    warning; reading the two can raise. *)
Definition MemoryTree__save (t : tree_id) (deadtime : option Z) (env : Env)
  : M unit :=
  T <~ get_tree t ;;
  set_tree t (with_save_counter (_save_counter T + 1)) ;;;
  let deadtime := default (_loadsavedeadtime T) deadtime in
  match _filename T with
  | None => ret tt
  | Some f =>
      ls <~ attr (_lastsave T) ;;
      if ls + deadtime * 1000 <? now env then
        set_tree t (with_lastsave (now env)) ;;;
        m <~ attr (_mtime T) ;;
        m' <~ getmtime f ;;
        copyfile f (f +:+ ".bak")%string (now env) ;;;
        try_reraise
          (buf <~ attr (_buffer_filename T) ;; write_sequence t f buf env)
          (copyfile (f +:+ ".bak")%string f (now env)) ;;;
        m'' <~ getmtime f ;;
        set_tree t (with_mtime m'')
      else
        tm <~ attr (_savetimer T) ;;
        if isActive tm then ret tt
        else set_tree t (with_savetimer (start (now env) tm))
  end.

(** [if self._savetimer.isActive(): self._savetimer.stop()] *)
Definition stop_if_active (t : tree_id) : M unit :=
  T <~ get_tree t ;;
  tm <~ attr (_savetimer T) ;;
  if isActive tm then set_tree t (with_savetimer (stop tm)) else ret tt.

(** [MemoryTree._save_now] (l. 530-538) *)
Definition MemoryTree__save_now (t : tree_id) (env : Env) : M unit :=
  stop_if_active t ;;;
  MemoryTree__save t (Some (-1)) env ;;;
  stop_if_active t.

(** The event loop delivers the [timeout] signal of an active timer once
    its interval has elapsed; a single-shot timer is inactive from then
    on.  The signal is connected to [_save], called without argument. *)
Definition timeout_enabled (t : tree_id) (at_ : Z) (w : world) : bool :=
  match trees w !! t with
  | Some T =>
      match _savetimer T with
      | Some tm =>
          match started tm with
          | Some s => bool_decide (s + interval tm <= at_)
          | None => false
          end
      | None => false
      end
  | None => false
  end.

(** the delivery of the signal at instant [now env] *)
Definition timeout (t : tree_id) (env : Env) : M unit :=
  T <~ get_tree t ;;
  tm <~ attr (_savetimer T) ;;
  set_tree t (with_savetimer
                (if singleShot tm then stop tm else start (now env) tm)) ;;;
  MemoryTree__save t None env.

(** [MemoryTree.__init__] (l. 425-443).  The new object takes the next
    identity; [_loadsavedeadtime] is the class attribute [3].  The last
    steps are [MemoryBranch.__init__(self, self, "")]: the [_defaults]
    setter stores the empty list and evaluates [self._dict], that is
    [OrderedDict().update(self._data)]. *)
Definition MemoryTree___init__ (filename source : option string) (env : Env)
  : M tree_id :=
  f <~ get_config_file filename source env ;;
  w <~ get_world ;;
  let t := length (trees w) in
  let deadtime := 3 in
  let T :=
    match filename, f with
    | Some _, Some f =>
        MkTree (Some f) (Some (now env)) (Some (f +:+ ".tmp")%string)
               (Some (Timer (deadtime * 1000) true None))
               None None None deadtime 0 []
    | _, _ => MkTree None None None None None None None deadtime 0 []
    end in
  modify (fun w => set_trees (trees w ++ [T]) w) ;;;
  MemoryTree__load t env ;;;
  set_tree t (with_save_counter 0) ;;;
  set_tree t (with_defaults []) ;;;
  data <~ tree_data t ;;
  update_from data ;;;
  ret t.

(** ** MemoryBranch *)

(** [b._parent] and [b._branch]; a tree is its own parent, under the name
    [""] *)
Definition parent_of (b : MemoryBranch) : MemoryBranch :=
  match b with
  | Tree t => Tree t
  | Branch p _ _ => p
  end.

Definition name_of (b : MemoryBranch) : string :=
  match b with
  | Tree _ => ""%string
  | Branch _ n _ => n
  end.

(** [b._defaults] *)
Definition defaults_of (b : MemoryBranch) : M (list MemoryBranch) :=
  match b with
  | Tree t => T <~ get_tree t ;; ret (tree_defaults T)
  | Branch _ _ ds => ret ds
  end.

(** The property [_data]: [self._parent._data[self._branch]]. *)
Fixpoint MemoryBranch__data (b : MemoryBranch) : M value :=
  match b with
  | Tree t => tree_data t
  | Branch p n _ => d <~ MemoryBranch__data p ;; subscript d n
  end.

(** [_reload] and [_save] of a branch call the same method of its parent
    (l. 361-367), up to the tree *)
Fixpoint MemoryBranch__reload (b : MemoryBranch) (env : Env) : M unit :=
  match b with
  | Tree t => MemoryTree__reload t env
  | Branch p _ _ => MemoryBranch__reload p env
  end.

Fixpoint MemoryBranch__save (b : MemoryBranch) (env : Env) : M unit :=
  match b with
  | Tree t => MemoryTree__save t None env
  | Branch p _ _ => MemoryBranch__save p env
  end.

(** [self._data[item]] *)
Definition own_item (b : MemoryBranch) (item : string) : M value :=
  data <~ MemoryBranch__data b ;; subscript data item.

(** The loop over the default branches; the bare [raise] after it
    re-raises the [KeyError] being handled. *)
Fixpoint search_defaults (ds : list MemoryBranch) (item : string) : M value :=
  match ds with
  | [] => raise KeyError
  | d :: rest => except_KeyError (own_item d item) (search_defaults rest item)
  end.

(** [MemoryBranch.__getitem__] (l. 277-288) *)
Definition MemoryBranch___getitem__ (b : MemoryBranch) (item : string)
    (env : Env) : M value :=
  MemoryBranch__reload b env ;;;
  except_KeyError (own_item b item)
    (ds <~ defaults_of b ;; search_defaults ds item).

(** [MemoryBranch.__setattr__] (l. 290-296).  A private name is assigned
    on the Python object [b] itself: the mappings of the tree are not
    written and no save is requested.  The attribute table of a branch
    object is not part of the store, so the private case leaves the store
    as it is; an assignment to an attribute of the record of a tree
    ([tree._filename = ...]) is outside this model. *)
Definition MemoryBranch___setattr__ (b : MemoryBranch) (name : string)
    (v : value) (env : Env) : M unit :=
  if is_private name then ret tt
  else
    data <~ MemoryBranch__data b ;;
    store data name v ;;;
    MemoryBranch__save b env.

(** [MemoryBranch.__setitem__] (l. 301-312); [dict(value)] is evaluated
    before the target [self._data] *)
Definition MemoryBranch___setitem__ (b : MemoryBranch) (item : string)
    (v : value) (env : Env) : M unit :=
  data <~ MemoryBranch__data b ;;
  present <~ contains data item ;;
  if present : bool then MemoryBranch___setattr__ b item v env
  else
    (if isbranch v then
       c <~ dict_copy v ;;
       data <~ MemoryBranch__data b ;;
       store data item c
     else
       data <~ MemoryBranch__data b ;;
       store data item v) ;;;
    MemoryBranch__save b env.

(** [MemoryBranch._pop] (l. 314-320) *)
Definition MemoryBranch__pop (b : MemoryBranch) (name : string) (env : Env)
  : M value :=
  data <~ MemoryBranch__data b ;;
  v <~ pop data name ;;
  MemoryBranch__save b env ;;;
  ret v.

(** [MemoryBranch._rename] (l. 322-324): the right-hand side [_pop] runs
    before the item assignment *)
Definition MemoryBranch__rename (b : MemoryBranch) (name : string)
    (env : Env) : M unit :=
  v <~ MemoryBranch__pop (parent_of b) (name_of b) env ;;
  MemoryBranch___setitem__ (parent_of b) name v env ;;;
  MemoryBranch__save b env.

(** [MemoryBranch._erase] (l. 326-332) *)
Definition MemoryBranch__erase (b : MemoryBranch) (env : Env) : M unit :=
  MemoryBranch__pop (parent_of b) (name_of b) env ;;;
  MemoryBranch__save b env.

(** [MemoryBranch._update] (l. 248-256), for the items of [new_dict] *)
Definition MemoryBranch__update (b : MemoryBranch) (new_dict : pydict)
    (env : Env) : M unit :=
  data <~ MemoryBranch__data b ;;
  update data new_dict ;;;
  MemoryBranch__save b env.

(** [MemoryBranch._set_yml] (l. 377-384) *)
Definition MemoryBranch__set_yml (b : MemoryBranch) (yml_content : string)
    (env : Env) : M unit :=
  n <~ lift (load yml_content) ;;
  branch <~ build n ;;
  data <~ MemoryBranch__data (parent_of b) ;;
  store data (name_of b) branch ;;;
  MemoryBranch__save b env.

(** ** The mutating operations of a branch, as one family *)

Inductive mutation :=
| write (name : string) (v : value)                (* [b.name = v] *)
| create_or_overwrite (item : string) (v : value)  (* [b[item] = v] *)
| bulk_update (new_dict : pydict)                  (* [b._update(new_dict)] *)
| remove (name : string)                           (* [b._pop(name)] *)
| rename_to (name : string)                        (* [b._rename(name)] *)
| erase                                            (* [b._erase()] *)
| import_text (yml_content : string).              (* [b._set_yml(text)] *)

Definition perform (b : MemoryBranch) (op : mutation) (env : Env) : M unit :=
  match op with
  | write name v => MemoryBranch___setattr__ b name v env
  | create_or_overwrite item v => MemoryBranch___setitem__ b item v env
  | bulk_update new_dict => MemoryBranch__update b new_dict env
  | remove name => MemoryBranch__pop b name env ;;; ret tt
  | rename_to name => MemoryBranch__rename b name env
  | erase => MemoryBranch__erase b env
  | import_text yml_content => MemoryBranch__set_yml b yml_content env
  end.

(** A burst of item assignments, each at its own instant. *)
Record assignment := Assign {
  on_branch : MemoryBranch;
  key : string;
  val : value;
  at_env : Env
}.

Fixpoint run_assignments (l : list assignment) : M unit :=
  match l with
  | [] => ret tt
  | a :: rest =>
      MemoryBranch___setitem__ (on_branch a) (key a) (val a) (at_env a) ;;;
      run_assignments rest
  end.

End Memory.

(** ** The views of a branch *)

(** [d.update(obj)] for the items [d] of a new [OrderedDict]: the items
    of a mapping are written over [d], an empty string adds nothing,
    another string raises [ValueError], any other scalar [TypeError]. *)
Definition updated_with (d : pydict) (obj : value) (w : world)
  : outcome pydict :=
  match obj with
  | VDict a =>
      match heap w !! a with
      | Some items => Ret (dict_update d items)
      | None => Raise TypeError
      end
  | VScalar (SStr EmptyString) => Ret d
  | VScalar (SStr _) => Raise ValueError
  | VScalar _ => Raise TypeError
  end.

(** the loop [for defaultdict in ...: d.update(defaultdict._dict)] *)
Fixpoint merge_defaults (_dict : MemoryBranch → option (outcome pydict))
    (l : list MemoryBranch) (d : pydict) : option (outcome pydict) :=
  match l with
  | [] => Some (Ret d)
  | defaultdict :: rest =>
      match _dict defaultdict with
      | Some (Ret items) => merge_defaults _dict rest (dict_update d items)
      | r => r
      end
  end.

(** The property [_dict] (l. 236-243).  It reads the store and writes
    nothing; the [OrderedDict] it builds is new at each call and is
    returned by its items.  The property calls itself on the defaults,
    and on theirs: [depth] bounds the nesting of these calls, and the
    result is [None] when the bound is reached. *)
Fixpoint MemoryBranch__dict (depth : nat) (b : MemoryBranch) (w : world)
  : option (outcome pydict) :=
  match depth with
  | O => None
  | S depth =>
      match defaults_of b w with
      | (_, Raise e) => Some (Raise e)
      | (_, Ret ds) =>
          match merge_defaults (fun x => MemoryBranch__dict depth x w)
                  (reverse ds) [] with
          | Some (Ret d) =>
              match MemoryBranch__data b w with
              | (_, Ret data) => Some (updated_with d data w)
              | (_, Raise e) => Some (Raise e)
              end
          | r => r
          end
      end
  end.

(** [MemoryBranch._keys] (l. 245-246): the keys of [_dict], in order *)
Definition MemoryBranch__keys (depth : nat) (b : MemoryBranch) (w : world)
  : option (outcome (list string)) :=
  match MemoryBranch__dict depth b w with
  | Some (Ret d) => Some (Ret d.*1)
  | Some (Raise e) => Some (Raise e)
  | None => None
  end.

(** The setter of [_defaults] (l. 215-229): the new defaults are stored,
    then [self._dict] is evaluated with them.  The result is the object
    with its new defaults, or [None] when [depth] is too small for that
    evaluation. *)
Definition MemoryBranch__set_defaults (depth : nat) (b : MemoryBranch)
    (defaults : list MemoryBranch) : M (option MemoryBranch) :=
  let evaluated (self : MemoryBranch) : M (option MemoryBranch) :=
    fun w =>
      match MemoryBranch__dict depth self w with
      | Some (Ret _) => (w, Ret (Some self))
      | Some (Raise e) => (w, Raise e)
      | None => (w, Ret None)
      end in
  match b with
  | Tree t => set_tree t (with_defaults defaults) ;;; evaluated (Tree t)
  | Branch p n _ => evaluated (Branch p n defaults)
  end.

(** [MemoryBranch.__init__] (l. 204-207) *)
Definition MemoryBranch___init__ (depth : nat) (parent : MemoryBranch)
    (branch : string) (defaults : list MemoryBranch)
  : M (option MemoryBranch) :=
  MemoryBranch__set_defaults depth (Branch parent branch []) defaults.

(** [MemoryBranch(parent, branch)], as [__getattribute__] calls it: with
    no defaults, the [_dict] that the setter evaluates is
    [OrderedDict().update(self._data)]. *)
Definition new_subbranch (parent : MemoryBranch) (branch : string)
  : M MemoryBranch :=
  let self := Branch parent branch [] in
  data <~ MemoryBranch__data self ;;
  w <~ get_world ;;
  lift (updated_with [] data w) ;;;
  ret self.

(** What the dot notation returns: an item of the data, a new branch
    object, or, for a name that starts with an underscore, the attribute
    that [object.__getattribute__] finds on the Python object. *)
Inductive attribute :=
| Item (v : value)
| Subbranch (b : MemoryBranch)
| OfObject (name : string).

(** [MemoryBranch._root] (l. 334-340) *)
Fixpoint MemoryBranch__root (b : MemoryBranch) : MemoryBranch :=
  match b with
  | Tree t => Tree t
  | Branch p _ _ => MemoryBranch__root p
  end.

(** the loop of [_fullbranchname] *)
Fixpoint fullbranchname_loop (parent : MemoryBranch) (branchname : string)
  : string :=
  match parent with
  | Tree _ => branchname
  | Branch p n _ => fullbranchname_loop p (n +:+ "." +:+ branchname)
  end.

(** [MemoryBranch._fullbranchname] (l. 342-349) *)
Definition MemoryBranch__fullbranchname (b : MemoryBranch) : string :=
  fullbranchname_loop (parent_of b) (name_of b).

(** [s.split(sep)] for a separator of one character *)
Fixpoint str_split (sep : ascii) (s : string) : list string :=
  match s with
  | EmptyString => [EmptyString]
  | String c s' =>
      if Ascii.eqb c sep then EmptyString :: str_split sep s'
      else
        match str_split sep s' with
        | [] => [String c EmptyString]
        | x :: r => String c x :: r
        end
  end.

Section Views.

Variable load : string -> outcome Node.
Variable save : list pydict -> value -> outcome string.

(** [MemoryBranch.__getattribute__] (l. 258-271) *)
Definition MemoryBranch___getattribute__ (b : MemoryBranch) (name : string)
    (env : Env) : M attribute :=
  if is_private name then ret (OfObject name)
  else
    attribute <~ MemoryBranch___getitem__ load b name env ;;
    if isbranch attribute then
      self <~ new_subbranch b name ;;
      ret (Subbranch self)
    else ret (Item attribute).

(** The loop of [_getbranch].  An item that is not a branch has no
    [_defaults] to assign; the attributes of such an item, and what
    [object.__getattribute__] returns for a name that starts with an
    underscore, are outside this model: [None]. *)
Fixpoint descend (branch : MemoryBranch) (names : list string) (env : Env)
  : M (option MemoryBranch) :=
  match names with
  | [] => ret (Some branch)
  | subbranch :: rest =>
      a <~ MemoryBranch___getattribute__ branch subbranch env ;;
      match a with
      | Subbranch b' => descend b' rest env
      | Item _ =>
          match rest with
          | [] => raise AttributeError
          | _ :: _ => ret None
          end
      | OfObject _ => ret None
      end
  end.

(** [MemoryBranch._getbranch] (l. 351-359) *)
Definition MemoryBranch__getbranch (depth : nat) (b : MemoryBranch)
    (branchname : string) (defaults : list MemoryBranch) (env : Env)
  : M (option MemoryBranch) :=
  branch <~ descend (MemoryBranch__root b) (str_split "." branchname) env ;;
  match branch with
  | Some branch => MemoryBranch__set_defaults depth branch defaults
  | None => ret None
  end.

(** [MemoryBranch._get_yml] (l. 369-375) *)
Definition MemoryBranch__get_yml (b : MemoryBranch) : M string :=
  data <~ MemoryBranch__data b ;;
  w <~ get_world ;;
  lift (save (heap w) data).

End Views.

(** ** Vocabulary of the statements *)

(** the tree a branch belongs to: the end of its [_parent] chain *)
Fixpoint root_of (b : MemoryBranch) : tree_id :=
  match b with
  | Tree t => t
  | Branch p _ _ => root_of p
  end.

(** The own Submapping of a branch: the items of the dict its [_data]
    resolves to. *)
Definition own_dict (w : world) (b : MemoryBranch) : option pydict :=
  match MemoryBranch__data b w with
  | (_, Ret (VDict a)) => heap w !! a
  | _ => None
  end.

(** the value of [k] in the own Submapping of [b], if it has one *)
Definition own_get (w : world) (b : MemoryBranch) (k : string)
  : option value :=
  match own_dict w b with
  | Some d => dict_get d k
  | None => None
  end.

(** The own data of [b] is a mapping, or [b] is absent from the tree
    (resolving its path raises [KeyError]). *)
Definition mapping_or_absent (w : world) (b : MemoryBranch) : Prop :=
  match MemoryBranch__data b w with
  | (_, Ret (VDict a)) => is_Some (heap w !! a)
  | (_, Raise KeyError) => True
  | _ => False
  end.

(** The dict objects subscripted on the way to the own data of [b]: the
    own data of its proper ancestors. *)
Fixpoint visited (w : world) (b : MemoryBranch) : list addr :=
  match b with
  | Tree _ => []
  | Branch p _ _ =>
      match MemoryBranch__data p w with
      | (_, Ret (VDict a)) => a :: visited w p
      | _ => visited w p
      end
  end.

(** [d] neither is [b] nor lies below it: resolving the own data of [d]
    does not go through the dict object [a]. *)
Definition apart_from (w : world) (a : addr) (d : MemoryBranch) : Prop :=
  (a ∉ visited w d) ∧ ((MemoryBranch__data d w).2 ≠ Ret (VDict a)).

(** Tree [t], when it has a backing file, has the attributes [__init__]
    and [_load] give such a tree, and its file is as the tree last saw
    it: nothing outside has modified it since the last load or save. *)
Definition well_kept (w : world) (t : tree_id) : Prop :=
  ∀ T f, trees w !! t = Some T → _filename T = Some f →
    _buffer_filename T = Some (f +:+ ".tmp")%string ∧
    is_Some (_lastsave T) ∧ is_Some (_savetimer T) ∧
    is_Some (_lastreload T) ∧
    ∃ fl, fs w !! f = Some fl ∧ _mtime T = Some (mtime fl).

(** the number of [_save] calls the tree has counted *)
Definition saves (w : world) (t : tree_id) : Z :=
  match trees w !! t with
  | Some T => _save_counter T
  | None => 0
  end.

(** the number of [tree._save()] calls of a mutating operation that
    returns normally *)
Definition save_calls (op : mutation) : Z :=
  match op with
  | rename_to _ => 3
  | erase => 2
  | _ => 1
  end.

(** the key an operation assigns, when it assigns one *)
Definition assigned_key (op : mutation) : option string :=
  match op with
  | write name _ => Some name
  | create_or_overwrite item _ => Some item
  | rename_to name => Some name
  | _ => None
  end.

(** [v'] is [v] itself or a dict holding the items [v] held in [h]:
    Python's [v' == v] for what a read returns. *)
Definition equal_to (h : list pydict) (v : value) (h' : list pydict)
    (v' : value) : Prop :=
  v' = v ∨ ∃ a a', v = VDict a ∧ v' = VDict a' ∧ h' !! a' = h !! a.

(** ** Relations between stores, for framing *)

(** the attributes of a tree that [_save] does not assign after it has
    counted the call *)
Definition tree_static (T T' : MemoryTree) : Prop :=
  _filename T' = _filename T ∧
  _buffer_filename T' = _buffer_filename T ∧
  inst_data T' = inst_data T ∧
  _lastreload T' = _lastreload T ∧
  _loadsavedeadtime T' = _loadsavedeadtime T ∧
  _save_counter T' = _save_counter T ∧
  tree_defaults T' = tree_defaults T.

(** [w'] differs from [w] in files and in the save bookkeeping only *)
Definition quiet (w w' : world) : Prop :=
  heap w' = heap w ∧ class_data w' = class_data w ∧
  ∀ t, option_Forall2 tree_static (trees w !! t) (trees w' !! t).

(** [w'] holds the same dict objects and the same roots as [w] *)
Definition same_data (w w' : world) : Prop :=
  heap w' = heap w ∧ class_data w' = class_data w ∧
  ∀ t, inst_data <$> trees w' !! t = inst_data <$> trees w !! t.

(** every dict object of [w], other than [a] when one is named, is kept
    in [w'], and the roots are the same *)
Definition frame (a : option addr) (w w' : world) : Prop :=
  class_data w' = class_data w ∧
  (∀ t, inst_data <$> trees w' !! t = inst_data <$> trees w !! t) ∧
  ∀ x d, a ≠ Some x → heap w !! x = Some d → heap w' !! x = Some d.

(** only dict objects differ between [w] and [w'] *)
Definition heap_only (w w' : world) : Prop :=
  trees w' = trees w ∧ fs w' = fs w ∧ class_data w' = class_data w.

(** every run of [m] relates its initial and final store by [R] *)
Definition keeps {A} (R : world → world → Prop) (m : M A) : Prop :=
  ∀ w w' r, m w = (w', r) → R w w'.


(** every run of [m] that returns adds [n] to the save counter of [t] *)
Definition counts {A} (t : tree_id) (n : Z) (m : M A) : Prop :=
  ∀ w w' x, m w = (w', Ret x) → saves w' t = saves w t + n.

(** the store once the single-shot timer of [t] has fired *)
Definition disarmed (t : tree_id) (w : world) : world :=
  match trees w !! t with
  | Some T =>
      match _savetimer T with
      | Some tm => set_trees (<[t := with_savetimer (stop tm) T]> (trees w)) w
      | None => w
      end
  | None => w
  end.

(** Tree [t] is backed by file [f], was last saved at [ls], has deadtime
    [D] (in seconds) and its timer is in state [tm]. *)
Definition debouncing (w : world) (t : tree_id) (f : string) (ls D : Z)
    (tm : QTimer) : Prop :=
  ∃ T, trees w !! t = Some T ∧ _filename T = Some f ∧
       _buffer_filename T = Some (f +:+ ".tmp")%string ∧
       _lastsave T = Some ls ∧ is_Some (_mtime T) ∧
       _loadsavedeadtime T = D ∧ _savetimer T = Some tm.

(** An assignment of a burst on tree [t] that began at instant [t1]: a
    public key, written through a branch of [t] while the debounce window
    opened by the save at [ls] has not elapsed, less than [D] after the
    burst began. *)
Definition in_burst (t : tree_id) (ls D t1 : Z) (a : assignment) : Prop :=
  root_of (on_branch a) = t ∧ is_private (key a) = false ∧
  now (at_env a) ≤ ls + D * 1000 ∧ now (at_env a) < t1 + D * 1000.

(** the names on the way from the tree to a branch *)
Fixpoint names_of (b : MemoryBranch) : list string :=
  match b with
  | Tree _ => []
  | Branch p n _ => names_of p ++ [n]
  end.

(** the branch objects that dot notation creates on the way to a branch:
    the same names, no defaults *)
Fixpoint without_defaults (b : MemoryBranch) : MemoryBranch :=
  match b with
  | Tree t => Tree t
  | Branch p n _ => Branch (without_defaults p) n []
  end.

(** [sep not in s] *)
Fixpoint lacks (sep : ascii) (s : string) : bool :=
  match s with
  | EmptyString => true
  | String c s' => negb (Ascii.eqb c sep) && lacks sep s'
  end.

(** the value of [k] in the own data of the first of [bs] that holds it *)
Fixpoint first_holding (w : world) (bs : list MemoryBranch) (k : string)
  : option value :=
  match bs with
  | [] => None
  | b :: rest =>
      match own_get w b k with
      | Some v => Some v
      | None => first_holding w rest k
      end
  end.

(** the branch objects created on the way down from [cur] *)
Definition extend (cur : MemoryBranch) (names : list string) : MemoryBranch :=
  fold_left (λ p n, Branch p n []) names cur.

(** the tree object that [__init__] sets up before it loads the file *)
Definition unloaded (f : string) (env : Env) : MemoryTree :=
  MkTree (Some f) (Some (now env)) (Some (f +:+ ".tmp")%string)
         (Some (Timer 3000 true None)) None None None 3 0 [].

(** tree [t] exists and is well kept *)
Definition kept (t : tree_id) (w : world) : Prop :=
  is_Some (trees w !! t) ∧ well_kept w t.

(** every run of [m] that returns keeps [P] *)
Definition maintains {A} (P : world → Prop) (m : M A) : Prop :=
  ∀ w w' x, P w → m w = (w', Ret x) → P w'.

(** ** A concrete backend

    A small stand-in for the YAML library and for [os.path], used to run
    the methods on concrete inputs.  The general theorems below hold for
    every backend. *)
Module Sample.

Definition load (s : string) : outcome Node :=
  if decide (s = ""%string) then Ret (Leaf SNone)
  else if decide (s = "{}"%string) then Ret (Submapping [])
  else if decide (s = "{a: {x: 1}}"%string) then
    Ret (Submapping [("a"%string, Submapping [("x"%string, Leaf (SInt 1))])])
  else Raise YAMLError.

Definition show_scalar (s : scalar) : string :=
  match s with
  | SNone => "null"
  | SBool true => "true"
  | SBool false => "false"
  | SInt z => pretty z
  | SStr s => s
  end.

Fixpoint show (fuel : nat) (h : list pydict) (v : value) : string :=
  match v with
  | VScalar s => show_scalar s
  | VDict a =>
      match fuel, (h !! a) with
      | S n, Some d =>
          "{" +:+ String.concat ", "
                    (map (fun kv => kv.1 +:+ ": " +:+ show n h kv.2) d)
              +:+ "}"
      | _, _ => "*"
      end
  end%string.

Definition save (h : list pydict) (v : value) : outcome string :=
  Ret (show (length h) h v).

Definition user_config_dir : string := "user".
Definition default_config_dir : string := "default".

(** file names without a directory part *)
Definition path_split (p : string) : string * string := (""%string, p).

Definition path_join (p f : string) : string :=
  if decide (p = ""%string) then f else (p +:+ "/" +:+ f)%string.

(** the store before any tree is constructed: the class attribute
    [MemoryTree._data = OrderedDict()] is the dict object at address 0 *)
Definition boot (files : gmap string file) : world :=
  World [[]] (VDict 0%nat) files [].

(** *** Concrete stores *)

Definition init : option string → option string → Env → M tree_id :=
  MemoryTree___init__ load user_config_dir default_config_dir
    path_split path_join.

Definition at_ (t : Z) : Env := MkEnv t None.

(** the file [user/c.yml] holds [{a: {x: 1}}], last modified at 5 *)
Definition disk : gmap string file :=
  {[ "user/c.yml"%string := File "{a: {x: 1}}" 5 ]}.

(** tree 0 is [MemoryTree("c")], constructed at instant 10 *)
Definition on_file : world := (init (Some "c"%string) None (at_ 10) (boot disk)).1.

(** tree 0 is [MemoryTree()] *)
Definition in_memory : world := (init None None (at_ 10) (boot ∅)).1.

(** trees 0 and 1 are both [MemoryTree()] *)
Definition two_trees : world := (init None None (at_ 11) in_memory).1.

Definition branch_a : MemoryBranch := Branch (Tree 0%nat) "a" [].

(** a tree without file whose root holds the branches [b], [d1] and
    [d2] *)
Definition layered : world :=
  World [ [("b"%string, VDict 1%nat); ("d1"%string, VDict 2%nat);
           ("d2"%string, VDict 3%nat)];
          [("own"%string, VScalar (SInt 0))];
          [("own"%string, VScalar (SInt 1)); ("both"%string, VScalar (SInt 1))];
          [("both"%string, VScalar (SInt 2)); ("last"%string, VScalar (SInt 2))] ]
        (VDict 0%nat) ∅
        [MkTree None None None None None None None 3 0 []].

Definition d1 : MemoryBranch := Branch (Tree 0%nat) "d1" [].
Definition d2 : MemoryBranch := Branch (Tree 0%nat) "d2" [].
Definition b : MemoryBranch := Branch (Tree 0%nat) "b" [d1; d2].

Definition tree_on_file : MemoryTree :=
  MkTree (Some "user/c.yml"%string) (Some 10) (Some "user/c.yml.tmp"%string)
         (Some (Timer 3000 true None)) (Some (VDict 2%nat)) (Some 5) (Some 10)
         3 0 [].

(** a save at 5000 whose [os.rename] fails *)
Definition failed_save : world * outcome unit :=
  MemoryTree__save save 0%nat None (MkEnv 5000 (Some FailRename)) on_file.

(** [tree["_x"] = 1] on the tree without file *)
Definition with_private : world :=
  (MemoryBranch___setitem__ save (Tree 0%nat) "_x" (VScalar (SInt 1)) (at_ 20)
     in_memory).1.

(** the file of tree 0 cut short by an editor *)
Definition tampered : world :=
  set_fs (<["user/c.yml"%string := File "{a: {x: 1" 20]> (fs on_file)) on_file.

(** the file of tree 0 emptied by an editor *)
Definition emptied : world :=
  set_fs (<["user/c.yml"%string := File "" 20]> (fs on_file)) on_file.

(** [tree["k"] = 1], then [v = {"x": 1}] *)
Definition before_overwrite : world :=
  (new_dict [("x"%string, VScalar (SInt 1))]
     (MemoryBranch___setitem__ save (Tree 0%nat) "k" (VScalar (SInt 1))
        (at_ 20) in_memory).1).1.

(** ... then [tree["k"] = v] *)
Definition after_overwrite : world :=
  (MemoryBranch___setitem__ save (Tree 0%nat) "k" (VDict 1%nat) (at_ 30)
     before_overwrite).1.

(** ... then [v["x"] = 2] *)
Definition after_mutation : world :=
  (store (VDict 1%nat) "x" (VScalar (SInt 2)) after_overwrite).1.

(** [v = {"x": 1}], then [tree["n"] = v] for a new key, then [v["x"] = 2] *)
Definition after_insert_and_mutation : world :=
  (store (VDict 1%nat) "x" (VScalar (SInt 2))
     (MemoryBranch___setitem__ save (Tree 0%nat) "n" (VDict 1%nat) (at_ 30)
        (new_dict [("x"%string, VScalar (SInt 1))] in_memory).1).1).1.

(** a burst of two assignments through [branch_a], at 20 and at 30 *)
Definition burst : list assignment :=
  [Assign branch_a "y" (VScalar (SInt 2)) (at_ 20);
   Assign branch_a "z" (VScalar (SInt 3)) (at_ 30)].

Definition after_burst : world := (run_assignments save burst on_file).1.

(** two assignments 20 ms apart, at 3000 and at 3020: the debounce
    window opened by the save at 10 ends at 3010, between them *)
Definition late_burst : list assignment :=
  [Assign branch_a "y" (VScalar (SInt 2)) (at_ 3000);
   Assign branch_a "z" (VScalar (SInt 3)) (at_ 3020)].

Definition after_late_burst : world :=
  (run_assignments save late_burst on_file).1.

(** ... then the timer fires at 6000, and again at 9000 *)
Definition after_first_timeout : world :=
  (timeout save 0%nat (at_ 6000) after_late_burst).1.

Definition after_second_timeout : world :=
  (timeout save 0%nat (at_ 9000) after_first_timeout).1.

(** branch [a] of tree 0, falling back on the root of the tree *)
Definition branch_a_rooted : MemoryBranch := Branch (Tree 0%nat) "a" [Tree 0%nat].

(** [tree.a["y"] = 2] at 20 on the tree with a file *)
Definition after_write : world :=
  (MemoryBranch___setitem__ save branch_a_rooted "y" (VScalar (SInt 2))
     (at_ 20) on_file).1.

(** [tree.a._rename("b")] at 20 on the tree with a file *)
Definition after_rename : world :=
  (perform load save branch_a (rename_to "b") (at_ 20) on_file).1.

(** the file of tree 0 deleted behind its back *)
Definition deleted : world :=
  set_fs (delete "user/c.yml"%string (fs on_file)) on_file.

(** the file of tree 0 replaced by an empty mapping, at 20 *)
Definition replaced : world :=
  set_fs (<["user/c.yml"%string := File "{}" 20]> (fs on_file)) on_file.

(** [tree._save()] at 5000 *)
Definition after_save : world :=
  (MemoryTree__save save 0%nat None (at_ 5000) on_file).1.

(** tree 0 as the burst leaves it *)
Definition tree_after_burst : MemoryTree :=
  MkTree (Some "user/c.yml"%string) (Some 10) (Some "user/c.yml.tmp"%string)
         (Some (Timer 3000 true (Some 20))) (Some (VDict 2%nat)) (Some 5)
         (Some 10) 3 2 [].

(** [tree.a._pop("x")] at 20 *)
Definition after_pop : world :=
  (MemoryBranch__pop save branch_a "x" (at_ 20) on_file).1.

(** [tree.a._erase()] at 20 *)
Definition after_erase : world :=
  (MemoryBranch__erase save branch_a (at_ 20) on_file).1.

(** [tree.a._update({"x": 5, "y": 6})] at 20 *)
Definition new_items : pydict :=
  [("x"%string, VScalar (SInt 5)); ("y"%string, VScalar (SInt 6))].

Definition after_update : world :=
  (MemoryBranch__update save branch_a new_items (at_ 20) on_file).1.

(** [tree.a._set_yml("{}")] at 20 *)
Definition after_import : world :=
  (MemoryBranch__set_yml load save branch_a "{}" (at_ 20) on_file).1.

(** [tree.a.y = 2] at 20 *)
Definition after_setattr : world :=
  (MemoryBranch___setattr__ save branch_a "y" (VScalar (SInt 2)) (at_ 20)
     on_file).1.

(** [v = {"x": 1}] beside the tree without file, then [tree["n"] = v] *)
Definition with_value : world :=
  (new_dict [("x"%string, VScalar (SInt 1))] in_memory).1.

Definition after_insert : world :=
  (MemoryBranch___setitem__ save (Tree 0%nat) "n" (VDict 1%nat) (at_ 30)
     with_value).1.

(** a tree without file whose root holds [a], which holds [b], which
    holds the leaf [c] *)
Definition nested : world :=
  World [ [("a"%string, VDict 1%nat)]; [("b"%string, VDict 2%nat)];
          [("c"%string, VScalar (SInt 1))] ]
        (VDict 0%nat) ∅
        [MkTree None None None None None None None 3 0 []].

Definition branch_ab : MemoryBranch :=
  Branch (Branch (Tree 0%nat) "a" []) "b" [].

(** a tree without file with three branches: [near] falls back on [mid],
    which falls back on [far] *)
Definition chained : world :=
  World [ [("near"%string, VDict 1%nat); ("mid"%string, VDict 2%nat);
           ("far"%string, VDict 3%nat)];
          [("n"%string, VScalar (SInt 0))];
          [("m"%string, VScalar (SInt 1))];
          [("f"%string, VScalar (SInt 2))] ]
        (VDict 0%nat) ∅
        [MkTree None None None None None None None 3 0 []].

Definition far : MemoryBranch := Branch (Tree 0%nat) "far" [].
Definition mid : MemoryBranch := Branch (Tree 0%nat) "mid" [far].
Definition near : MemoryBranch := Branch (Tree 0%nat) "near" [mid].

(** [os.path.split] on relative paths: the part before the last slash,
    if there is one, and the part after it *)
Fixpoint split_at_last_slash (s : string) : option string * string :=
  match s with
  | EmptyString => (None, EmptyString)
  | String c s' =>
      match split_at_last_slash s' with
      | (Some h, t) => (Some (String c h), t)
      | (None, t) =>
          if Ascii.eqb c "/" then (Some EmptyString, t)
          else (None, String c t)
      end
  end.

Definition os_path_split (s : string) : string * string :=
  let '(h, t) := split_at_last_slash s in (default EmptyString h, t).

(** only the default directory holds [c.yml] *)
Definition default_disk : gmap string file :=
  {[ "default/c.yml"%string := File "{}" 3 ]}.

End Sample.

(** * Properties *)

(** ** Dicts *)

Lemma dict_get_set_eq (d : pydict) k v : dict_get (dict_set d k v) k = Some v.
Proof.
  induction d as [|[k' v'] d IH]; simpl.
  - by rewrite decide_True.
  - destruct (decide (k' = k)) as [->|Hne]; simpl.
    + by rewrite decide_True.
    + by rewrite decide_False.
Qed.

Lemma dict_get_set_ne (d : pydict) k k' v :
  k ≠ k' → dict_get (dict_set d k v) k' = dict_get d k'.
Proof.
  intros Hne. induction d as [|[k0 v0] d IH]; simpl.
  - by rewrite decide_False.
  - destruct (decide (k0 = k)) as [->|Hne0]; simpl.
    + by rewrite !(decide_False (P := k = k')).
    + by rewrite IH.
Qed.

(** ** Paths *)

Lemma append_empty_r (s : string) : (s +:+ "")%string = s.
Proof. induction s as [|a s IH]; [done|]. change (String a (s +:+ "") = String a s)%string. by rewrite IH. Qed.

Lemma path_ne_suffix (f suffix : string) :
  suffix ≠ ""%string → (f +:+ suffix)%string ≠ f.
Proof.
  intros Hne Heq. apply Hne.
  rewrite <- (append_empty_r f) in Heq at 2.
  by apply (inj (String.app f)) in Heq.
Qed.

Lemma tmp_ne_bak (f : string) : (f +:+ ".tmp")%string ≠ (f +:+ ".bak")%string.
Proof. intros Heq. by apply (inj (String.app f)) in Heq. Qed.

(** ** Running the monad *)

Ltac unfold_prims :=
  unfold try_reraise, except_KeyError, bind, get_tree, set_tree, attr, ret,
    raise, copyfile, read_file, write_file, getmtime, modify, tree_data,
    unlink, rename, lift, get_world, isfile.

Ltac lookups :=
  rewrite ?list_insert_insert_eq;
  rewrite ?list_lookup_insert_eq, ?lookup_insert_eq, ?lookup_delete_eq
    by (rewrite ?length_insert; (done || (by eapply lookup_lt_Some)));
  rewrite ?lookup_insert_ne, ?lookup_delete_ne
    by (done || (by apply not_eq_sym)).

Lemma bind_Ret {A B} (m : M A) (k : A → M B) w w' b :
  bind m k w = (w', Ret b) →
  ∃ a w1, m w = (w1, Ret a) ∧ k a w1 = (w', Ret b).
Proof.
  unfold bind. destruct (m w) as [w1 [a|e]]; [|done]. eauto.
Qed.

Lemma bind_run_Ret {A B} (m : M A) (k : A → M B) w w1 a :
  m w = (w1, Ret a) → bind m k w = k a w1.
Proof. unfold bind. by intros ->. Qed.

Lemma bind_run_Raise {A B} (m : M A) (k : A → M B) w w1 e :
  m w = (w1, Raise e) → bind m k w = (w1, Raise e).
Proof. unfold bind. by intros ->. Qed.

Lemma set_tree_inv t f w w' :
  set_tree t f w = (w', Ret tt) →
  ∃ T, trees w !! t = Some T ∧ w' = set_trees (<[t := f T]> (trees w)) w.
Proof.
  unfold set_tree. destruct (trees w !! t) as [T|]; [|done].
  intros [= <-]. eauto.
Qed.

Lemma update_from_world obj w w' r : update_from obj w = (w', r) → w' = w.
Proof. unfold update_from. by repeat case_match; intros [= <- <-]. Qed.

Lemma tree_data_Some t w T :
  trees w !! t = Some T →
  ∃ root, tree_data t w = (w, Ret root).
Proof. intros Ht. unfold tree_data. rewrite Ht. destruct (inst_data T); eauto. Qed.

(** ** A failing save *)

Section SaveFailure.
Variable save : list pydict -> value -> outcome string.

(** A save that reaches the write sequence: it raises when a step is
    made to fail or the backend raises, and whenever it raises the target
    and the backup hold what the target held before. *)
Lemma save_failure_cases w t T f c m ls mt d env w' r root :
  trees w !! t = Some T →
  tree_data t w = (w, Ret root) →
  _filename T = Some f →
  _buffer_filename T = Some (f +:+ ".tmp")%string →
  _lastsave T = Some ls →
  _mtime T = Some mt →
  fs w !! f = Some (File c m) →
  ls + default (_loadsavedeadtime T) d * 1000 < now env →
  MemoryTree__save save t d env w = (w', r) →
  ((is_Some (fault env) ∨ ∃ e, save (heap w) root = Raise e) →
     ∃ e, r = Raise e)
  ∧ (∀ e, r = Raise e →
       content <$> fs w' !! f = Some c
       ∧ content <$> fs w' !! (f +:+ ".bak")%string = Some c).
Proof.
  intros Ht Hdata Hf Hbuf Hls Hmt Hfile Hlt.
  revert Hdata. unfold tree_data. rewrite Ht. intros Hdata.
  apply Z.ltb_lt in Hlt.
  pose proof (path_ne_suffix f ".tmp" ltac:(done)) as Htmp.
  pose proof (path_ne_suffix f ".bak" ltac:(done)) as Hbak.
  pose proof (tmp_ne_bak f) as Htb.
  unfold MemoryTree__save, write_sequence.
  destruct (fault env) as [[]|] eqn:Hfault,
    (inst_data T) as [root'|] eqn:Hroot; simplify_eq.
  all: repeat (progress (unfold_prims; simpl;
         rewrite ?Ht, ?Hf, ?Hls, ?Hlt, ?Hmt, ?Hfile, ?Hbuf, ?Hroot; lookups)).
  all: try destruct (save _ _) as [s|e0] eqn:Hdump.
  all: repeat (progress (unfold_prims; simpl;
         rewrite ?Ht, ?Hf, ?Hls, ?Hlt, ?Hmt, ?Hfile, ?Hbuf, ?Hroot; lookups)).
  all: intros [= <- <-]; split;
         [first [by intros [[? [=]]|[? [=]]] | by eexists] | ].
  all: intros e He; try done; simpl; by repeat lookups.
Qed.

End SaveFailure.

(** ** Reading through a branch *)

(** resolving [_data] reads the store and leaves it as it is *)
Lemma data_world b w : (MemoryBranch__data b w).1 = w.
Proof.
  revert w. induction b as [t|p IH n ds]; intros w; simpl.
  - unfold tree_data. by repeat case_match.
  - unfold bind. specialize (IH w).
    destruct (MemoryBranch__data p w) as [w1 [d|e]]; simpl in *; subst; [|done].
    unfold subscript. by repeat case_match.
Qed.

Lemma data_run b w : MemoryBranch__data b w = (w, (MemoryBranch__data b w).2).
Proof. rewrite <- (data_world b w) at 2. by destruct (MemoryBranch__data b w). Qed.

Lemma own_item_spec w b k :
  mapping_or_absent w b →
  own_item b k w =
    (w, match own_get w b k with Some v => Ret v | None => Raise KeyError end).
Proof.
  unfold mapping_or_absent, own_item, own_get, own_dict, bind.
  rewrite (data_run b w).
  destruct (MemoryBranch__data b w).2 as [[s|a]|[]]; try done.
  intros [d Hd]. unfold subscript. rewrite Hd. by destruct (dict_get d k).
Qed.

Section Reading.
Variable load : string -> outcome Node.

Lemma getitem_spec w env b d1 d2 k w1 :
  MemoryBranch__reload load b env w = (w1, Ret tt) →
  defaults_of b w1 = (w1, Ret [d1; d2]) →
  mapping_or_absent w1 b →
  mapping_or_absent w1 d1 →
  mapping_or_absent w1 d2 →
  MemoryBranch___getitem__ load b k env w =
    (w1, match own_get w1 b k with
         | Some v => Ret v
         | None =>
             match own_get w1 d1 k with
             | Some v => Ret v
             | None =>
                 match own_get w1 d2 k with
                 | Some v => Ret v
                 | None => Raise KeyError
                 end
             end
         end).
Proof.
  intros Hre Hds Hb H1 H2.
  unfold MemoryBranch___getitem__, bind at 1. rewrite Hre.
  unfold except_KeyError at 1. rewrite (own_item_spec _ _ _ Hb).
  destruct (own_get w1 b k); [done|].
  unfold bind. rewrite Hds. simpl.
  unfold except_KeyError at 1. rewrite (own_item_spec _ _ _ H1).
  destruct (own_get w1 d1 k); [done|].
  unfold except_KeyError at 1. rewrite (own_item_spec _ _ _ H2).
  by destruct (own_get w1 d2 k).
Qed.


End Reading.

(** ** Framing *)

#[global] Instance tree_static_refl : Reflexive tree_static.
Proof. by intros T. Qed.

#[global] Instance tree_static_trans : Transitive tree_static.
Proof.
  intros T1 T2 T3 (?&?&?&?&?&?&?) (?&?&?&?&?&?&?).
  repeat split; congruence.
Qed.

#[global] Instance quiet_refl : Reflexive quiet.
Proof.
  intros w. repeat split. intros t. by destruct (trees w !! t); constructor.
Qed.

#[global] Instance quiet_trans : Transitive quiet.
Proof.
  intros w1 w2 w3 (?&?&H12) (?&?&H23). repeat split; try congruence.
  intros t. specialize (H12 t). specialize (H23 t).
  destruct H12; inversion H23; subst; constructor. by etrans.
Qed.

#[global] Instance heap_only_refl : Reflexive heap_only.
Proof. by intros w. Qed.

#[global] Instance heap_only_trans : Transitive heap_only.
Proof. intros w1 w2 w3 (?&?&?) (?&?&?). repeat split; congruence. Qed.

#[global] Instance same_data_refl : Reflexive same_data.
Proof. by intros w. Qed.

#[global] Instance same_data_trans : Transitive same_data.
Proof.
  intros w1 w2 w3 (?&?&H12) (?&?&H23).
  split; [congruence|]. split; [congruence|].
  intros t. by rewrite H23, H12.
Qed.

Lemma same_data_insert w t T T' :
  trees w !! t = Some T →
  inst_data T' = inst_data T →
  same_data w (set_trees (<[t := T']> (trees w)) w).
Proof.
  intros Ht Hi. split; [done|]. split; [done|]. intros t'.
  change (trees (set_trees ?x _)) with x.
  destruct (decide (t = t')) as [<-|Hne].
  - rewrite Ht, list_lookup_insert_eq by (by eapply lookup_lt_Some).
    simpl. by rewrite Hi.
  - by rewrite list_lookup_insert_ne.
Qed.

Lemma quiet_same_data w w' : quiet w w' → same_data w w'.
Proof.
  intros (?&?&H). repeat split; try done. intros t.
  destruct (H t) as [T T' (?&?&?&?)|]; simpl; [f_equal; done|done].
Qed.

Lemma same_data_frame a w w' : same_data w w' → frame a w w'.
Proof. intros (Hh&?&?). repeat split; try done. intros. by rewrite Hh. Qed.

Lemma frame_trans a w1 w2 w3 : frame a w1 w2 → frame a w2 w3 → frame a w1 w3.
Proof.
  intros (?&H1&?) (?&H2&?). repeat split; [congruence| |eauto].
  intros t. by rewrite H2, H1.
Qed.

Lemma frame_weaken a w w' : frame None w w' → frame a w w'.
Proof. intros (?&?&H). repeat split; try done. intros. by apply H. Qed.

Lemma frame_append w l : frame None w (set_heap (heap w ++ l) w).
Proof.
  split; [done|]. split; [done|]. intros x d _ Hx. simpl.
  by apply lookup_app_l_Some.
Qed.

Lemma frame_store w a d : frame (Some a) w (set_heap (<[a := d]> (heap w)) w).
Proof.
  split; [done|]. split; [done|]. intros x dx Hne Hx. simpl.
  rewrite list_lookup_insert_ne; [done|congruence].
Qed.

Section Keeps.
Context (R : world → world → Prop) `{!Reflexive R, !Transitive R}.

Lemma keeps_ret {A} (a : A) : keeps R (ret a).
Proof. by intros w w' r [= <- <-]. Qed.

Lemma keeps_raise {A} e : keeps R (raise (A := A) e).
Proof. by intros w w' r [= <- <-]. Qed.

Lemma keeps_lift {A} (o : outcome A) : keeps R (lift o).
Proof. by intros w w' r [= <- <-]. Qed.

Lemma keeps_attr {A} (o : option A) : keeps R (attr o).
Proof. destruct o; [apply keeps_ret|apply keeps_raise]. Qed.

Lemma keeps_get_world : keeps R get_world.
Proof. by intros w w' r [= <- <-]. Qed.

Lemma keeps_get_tree t : keeps R (get_tree t).
Proof. intros w w' r. unfold get_tree. by case_match; intros [= <- <-]. Qed.

Lemma keeps_tree_data t : keeps R (tree_data t).
Proof.
  intros w w' r. unfold tree_data. by repeat case_match; intros [= <- <-].
Qed.

Lemma keeps_bind {A B} (m : M A) (k : A → M B) :
  keeps R m → (∀ a, keeps R (k a)) → keeps R (bind m k).
Proof.
  intros Hm Hk w w' r. unfold bind.
  destruct (m w) as [w1 [a|e]] eqn:Hmw.
  - intros Hka. etrans; [by eapply Hm|by eapply Hk].
  - intros [= <- <-]. by eapply Hm.
Qed.

Lemma keeps_try_reraise {A} (m : M A) (h : M unit) :
  keeps R m → keeps R h → keeps R (try_reraise m h).
Proof.
  intros Hm Hh w w' r. unfold try_reraise.
  destruct (m w) as [w1 [a|e]] eqn:Hmw.
  - intros [= <- <-]. by eapply Hm.
  - destruct (h w1) as [w2 [[]|e']] eqn:Hhw; intros [= <- <-];
      (etrans; [by eapply Hm|by eapply Hh]).
Qed.

End Keeps.

Lemma quiet_set_tree t f :
  (∀ T, tree_static T (f T)) → keeps quiet (set_tree t f).
Proof.
  intros Hf w w' r. unfold set_tree.
  destruct (trees w !! t) as [T|] eqn:Ht; intros [= <- <-]; [|done].
  split; [done|]. split; [done|]. intros t'.
  change (trees (set_trees ?x _)) with x.
  destruct (decide (t = t')) as [<-|Hne].
  - rewrite Ht, list_lookup_insert_eq by (by eapply lookup_lt_Some).
    by constructor.
  - rewrite list_lookup_insert_ne by done.
    by destruct (trees w !! t'); constructor.
Qed.

Lemma quiet_fs (f : world → gmap string file) :
  keeps quiet (modify (fun w => set_fs (f w) w)).
Proof.
  intros w w' r [= <- <-]. repeat split. intros t. simpl.
  by destruct (trees w !! t); constructor.
Qed.

Lemma quiet_write_file p s x : keeps quiet (write_file p s x).
Proof. apply quiet_fs. Qed.

Lemma quiet_getmtime p : keeps quiet (getmtime p).
Proof. intros w w' r. unfold getmtime. by case_match; intros [= <- <-]. Qed.

Lemma quiet_read_file p : keeps quiet (read_file p).
Proof. intros w w' r. unfold read_file. by case_match; intros [= <- <-]. Qed.

Lemma quiet_copyfile p q x : keeps quiet (copyfile p q x).
Proof.
  apply keeps_bind; [typeclasses eauto ..|apply quiet_read_file|].
  intros s. apply quiet_write_file.
Qed.

Lemma quiet_unlink p : keeps quiet (unlink p).
Proof.
  intros w w' r. unfold unlink. case_match; intros [= <- <-]; [|done].
  repeat split. intros t. simpl. by destruct (trees w !! t); constructor.
Qed.

Lemma quiet_rename p q : keeps quiet (rename p q).
Proof.
  intros w w' r. unfold rename. case_match; intros [= <- <-]; [|done].
  repeat split. intros t. simpl. by destruct (trees w !! t); constructor.
Qed.

Create HintDb quiet_db.
#[global] Hint Resolve keeps_ret keeps_raise keeps_lift keeps_attr
  keeps_get_world keeps_get_tree keeps_tree_data quiet_write_file
  quiet_getmtime quiet_read_file quiet_copyfile quiet_unlink quiet_rename
  : quiet_db.

Ltac quiet_step :=
  first
    [ apply keeps_bind; [typeclasses eauto .. | | intros ?]
    | apply keeps_try_reraise; [typeclasses eauto .. | | ]
    | apply quiet_set_tree; intros ?; by repeat split
    | solve [eauto with quiet_db typeclass_instances]
    | case_match ].

Lemma heap_only_data b : keeps heap_only (MemoryBranch__data b).
Proof.
  intros w w' r H. pose proof (data_world b w) as Hw. rewrite H in Hw.
  simpl in Hw. by subst.
Qed.

Lemma heap_only_subscript obj k : keeps heap_only (subscript obj k).
Proof. intros w w' r. unfold subscript. by repeat case_match; intros [= <- <-]. Qed.

Lemma heap_only_contains obj k : keeps heap_only (contains obj k).
Proof. intros w w' r. unfold contains. by repeat case_match; intros [= <- <-]. Qed.

Lemma heap_only_store obj k v : keeps heap_only (store obj k v).
Proof. intros w w' r. unfold store. by repeat case_match; intros [= <- <-]. Qed.

Lemma heap_only_pop obj k : keeps heap_only (pop obj k).
Proof. intros w w' r. unfold pop. by repeat case_match; intros [= <- <-]. Qed.

Lemma heap_only_update obj items : keeps heap_only (update obj items).
Proof. intros w w' r. unfold update. by repeat case_match; intros [= <- <-]. Qed.

Lemma heap_only_dict_copy obj : keeps heap_only (dict_copy obj).
Proof.
  intros w w' r. unfold dict_copy, new_dict.
  by repeat case_match; intros [= <- <-].
Qed.

Lemma heap_only_build n : keeps heap_only (build n).
Proof.
  intros w w' r. unfold build. destruct (alloc_node n (heap w)).
  by intros [= <- <-].
Qed.

Create HintDb heap_db.
#[global] Hint Resolve keeps_ret keeps_raise keeps_lift heap_only_data
  heap_only_subscript heap_only_contains heap_only_store heap_only_pop
  heap_only_update heap_only_dict_copy heap_only_build : heap_db.

Ltac heap_step :=
  first
    [ apply keeps_bind; [typeclasses eauto .. | | intros ?]
    | solve [eauto with heap_db typeclass_instances]
    | case_match ].

(** ** Saving *)

Section Saving.
Variable save : list pydict -> value -> outcome string.

Lemma quiet_write_sequence t f buf env :
  keeps quiet (write_sequence save t f buf env).
Proof. unfold write_sequence. repeat quiet_step. Qed.

(** Once [_save] has counted the call, it writes files, [_lastsave],
    [_mtime] and the timer only. *)
Lemma save_after_count t d env w w' r T :
  trees w !! t = Some T →
  MemoryTree__save save t d env w = (w', r) →
  quiet (set_trees (<[t := with_save_counter (_save_counter T + 1) T]>
                      (trees w)) w) w'.
Proof.
  intros Ht. unfold MemoryTree__save.
  rewrite (bind_run_Ret _ _ w w T) by (unfold get_tree; by rewrite Ht).
  erewrite bind_run_Ret by (unfold set_tree; by rewrite Ht).
  cbv beta. intros Hrun.
  match type of Hrun with
  | ?m ?w1 = _ => cut (keeps quiet m); [intros Hk; exact (Hk _ _ _ Hrun)|]
  end.
  repeat (quiet_step || apply quiet_write_sequence).
Qed.

Lemma save_keeps_data t d env w w' r :
  MemoryTree__save save t d env w = (w', r) → same_data w w'.
Proof.
  intros Hrun. destruct (trees w !! t) as [T|] eqn:Ht.
  - etrans; [|apply quiet_same_data; by eapply save_after_count].
    by eapply same_data_insert.
  - revert Hrun. unfold MemoryTree__save, bind, get_tree. rewrite Ht.
    by intros [= <- <-].
Qed.

(** [_save] without a backing file: the call is counted, nothing else *)
Lemma save_in_memory t d env w T :
  trees w !! t = Some T →
  _filename T = None →
  MemoryTree__save save t d env w =
    (set_trees (<[t := with_save_counter (_save_counter T + 1) T]> (trees w))
       w, Ret tt).
Proof.
  intros Ht Hf. unfold MemoryTree__save.
  repeat (progress (unfold_prims; simpl; rewrite ?Ht, ?Hf; lookups)). done.
Qed.

(** [_save] inside the debounce window: the call is counted and the
    timer is started unless it is running already *)
Lemma save_deferred t d env w T f ls tm :
  trees w !! t = Some T →
  _filename T = Some f →
  _lastsave T = Some ls →
  _savetimer T = Some tm →
  now env ≤ ls + default (_loadsavedeadtime T) d * 1000 →
  MemoryTree__save save t d env w =
    (set_trees
       (<[t := if isActive tm
               then with_save_counter (_save_counter T + 1) T
               else with_savetimer (start (now env) tm)
                      (with_save_counter (_save_counter T + 1) T)]>
          (trees w)) w, Ret tt).
Proof.
  intros Ht Hf Hls Htm Hle. apply Z.ltb_ge in Hle.
  unfold MemoryTree__save.
  destruct (isActive tm) eqn:Hact.
  all: repeat (progress (unfold_prims; simpl;
         rewrite ?Ht, ?Hf, ?Hls, ?Htm, ?Hle, ?Hact; lookups)).
  all: done.
Qed.

(** [_save] after the debounce window, nothing failing: the target holds
    the rendering of the current root *)
Lemma save_flush t d env w T f ls mt root s fl :
  trees w !! t = Some T →
  _filename T = Some f →
  _buffer_filename T = Some (f +:+ ".tmp")%string →
  _lastsave T = Some ls →
  _mtime T = Some mt →
  fs w !! f = Some fl →
  ls + default (_loadsavedeadtime T) d * 1000 < now env →
  fault env = None →
  tree_data t w = (w, Ret root) →
  save (heap w) root = Ret s →
  ∃ w', MemoryTree__save save t d env w = (w', Ret tt)
    ∧ heap w' = heap w
    ∧ fs w' !! f = Some (File s (now env))
    ∧ fs w' !! (f +:+ ".tmp")%string = None
    ∧ fs w' !! (f +:+ ".bak")%string = Some (File (content fl) (now env))
    ∧ trees w' =
        <[t := with_mtime (now env)
                 (with_lastsave (now env)
                    (with_save_counter (_save_counter T + 1) T))]> (trees w).
Proof.
  intros Ht Hf Hbuf Hls Hmt Hfile Hlt Hfault Hroot Hdump.
  apply Z.ltb_lt in Hlt.
  pose proof (path_ne_suffix f ".tmp" ltac:(done)) as Htmp.
  pose proof (path_ne_suffix f ".bak" ltac:(done)) as Hbak.
  pose proof (tmp_ne_bak f) as Htb.
  revert Hroot. unfold tree_data. rewrite Ht. intros Hroot.
  unfold MemoryTree__save, write_sequence. rewrite Hfault.
  destruct (inst_data T) as [root'|] eqn:Hinst; simplify_eq.
  all: repeat (progress (unfold_prims; simpl;
         rewrite ?Ht, ?Hf, ?Hls, ?Hlt, ?Hmt, ?Hfile, ?Hbuf, ?Hinst, ?Hdump;
         lookups)).
  all: eexists; split; [done|]; simpl; lookups.
  all: repeat split; try done; by repeat lookups.
Qed.

End Saving.

Section SavingReturns.
Variable save : list pydict -> value -> outcome string.

Lemma save_Ret_tree t d env w w' :
  MemoryTree__save save t d env w = (w', Ret tt) →
  is_Some (trees w !! t) ∧ is_Some (trees w' !! t).
Proof.
  intros Hrun. destruct (trees w !! t) as [T|] eqn:Ht; last first.
  { revert Hrun. unfold MemoryTree__save, bind, get_tree. by rewrite Ht. }
  split; [done|].
  destruct (save_keeps_data _ _ _ _ _ _ _ Hrun) as (_ & _ & Hi).
  specialize (Hi t). rewrite Ht in Hi. by destruct (trees w' !! t).
Qed.

(** a save that returns leaves the tree well kept *)
Lemma save_well_kept t d env w w' :
  well_kept w t →
  MemoryTree__save save t d env w = (w', Ret tt) →
  well_kept w' t.
Proof.
  intros Hk Hrun.
  destruct (trees w !! t) as [T|] eqn:Ht; last first.
  { revert Hrun. unfold MemoryTree__save, bind, get_tree. by rewrite Ht. }
  destruct (_filename T) as [f|] eqn:Hf; last first.
  { rewrite (save_in_memory _ _ _ _ _ _ Ht Hf) in Hrun.
    injection Hrun as <-. intros T' f'.
    change (trees (set_trees ?x _)) with x.
    rewrite list_lookup_insert_eq by (by eapply lookup_lt_Some).
    intros [= <-]. simpl. by rewrite Hf. }
  destruct (Hk T f Ht Hf) as (Hbuf & [ls Hls] & [tm Htm] & Hlr & fl & Hfl & Hmt).
  destruct (decide (ls + default (_loadsavedeadtime T) d * 1000 < now env))
    as [Hlt|Hge].
  - destruct (tree_data_Some _ _ _ Ht) as [root Hroot]. destruct fl as [c m].
    destruct (fault env) as [step|] eqn:Hfault.
    { destruct (save_failure_cases save _ _ _ _ _ _ _ _ _ _ _ _ _
                  Ht Hroot Hf Hbuf Hls Hmt Hfl Hlt Hrun) as [Hr _].
      destruct Hr as [e [=]]. left. by rewrite Hfault. }
    destruct (save (heap w) root) as [s|e] eqn:Hdump.
    2:{ destruct (save_failure_cases save _ _ _ _ _ _ _ _ _ _ _ _ _
                  Ht Hroot Hf Hbuf Hls Hmt Hfl Hlt Hrun) as [Hr _].
        destruct Hr as [e' [=]]. right. eauto. }
    destruct (save_flush save _ _ _ _ _ _ _ _ _ _ _
                Ht Hf Hbuf Hls Hmt Hfl Hlt Hfault Hroot Hdump)
      as (w2 & Hrun' & _ & Hf2 & _ & _ & Ht2).
    rewrite Hrun in Hrun'. injection Hrun' as <-.
    intros T' f'. rewrite Ht2.
    rewrite list_lookup_insert_eq by (by eapply lookup_lt_Some).
    intros [= <-]. simpl. rewrite Hf. intros [= <-].
    rewrite Hbuf, Htm, Hf2. simpl. eauto 10.
  - rewrite (save_deferred _ _ _ _ _ _ _ _ _ Ht Hf Hls Htm) in Hrun by lia.
    injection Hrun as <-. intros T' f'.
    change (trees (set_trees ?x _)) with x.
    change (fs (set_trees _ ?x)) with (fs x).
    rewrite list_lookup_insert_eq by (by eapply lookup_lt_Some).
    intros [= <-].
    destruct (isActive tm); simpl; rewrite Hf; intros [= <-];
      rewrite ?Hbuf, ?Hls, ?Htm, ?Hmt; eauto 10.
Qed.

End SavingReturns.

(** ** Resolving a branch in a changed store *)

Lemma tree_data_frame a w w' t v :
  frame a w w' → tree_data t w = (w, Ret v) → tree_data t w' = (w', Ret v).
Proof.
  intros (Hc & Ht & _). unfold tree_data. specialize (Ht t).
  destruct (trees w !! t) as [T|]; [|done].
  destruct (trees w' !! t) as [T'|]; [|done].
  simpl in Ht. injection Ht as Ht. rewrite Ht, Hc.
  destruct (inst_data T); by intros [= <-].
Qed.

Lemma subscript_inv obj k w w' v :
  subscript obj k w = (w', Ret v) →
  w' = w ∧ ∃ a d, obj = VDict a ∧ heap w !! a = Some d ∧ dict_get d k = Some v.
Proof.
  unfold subscript. destruct obj as [|a]; [done|].
  destruct (heap w !! a) as [d|] eqn:Hd; [|done].
  destruct (dict_get d k) eqn:Hk; [|done].
  intros [= <- <-]. eauto 10.
Qed.

Lemma resolve_frame a w w' b v :
  frame a w w' →
  (∀ x, a = Some x → x ∉ visited w b) →
  MemoryBranch__data b w = (w, Ret v) →
  MemoryBranch__data b w' = (w', Ret v).
Proof.
  intros Hfr. revert v. induction b as [t|p IH n ds]; intros v Hv Hdata.
  - by eapply tree_data_frame.
  - simpl in *. apply bind_Ret in Hdata as (dv & w1 & Hp & Hsub).
    pose proof (data_world p w) as Hw. rewrite Hp in Hw. simpl in Hw. subst w1.
    apply subscript_inv in Hsub as (_ & x & dx & -> & Hx & Hk).
    rewrite Hp in Hv.
    erewrite bind_run_Ret; last first.
    { apply IH; [|done]. intros y Hy. specialize (Hv y Hy). set_solver. }
    unfold subscript.
    destruct Hfr as (_ & _ & Hh). erewrite Hh; [by rewrite Hk| |done].
    intros ->. specialize (Hv x eq_refl). set_solver.
Qed.

Lemma own_dict_frame a w w' d dd :
  frame (Some a) w w' → apart_from w a d →
  own_dict w d = Some dd → own_dict w' d = Some dd.
Proof.
  intros Hfr [Hv Hne]. unfold own_dict. rewrite (data_run d w) in *.
  destruct (MemoryBranch__data d w).2 as [[s|x]|e] eqn:Hd; try done.
  intros Hx. erewrite resolve_frame; [| done | | by rewrite (data_run d w), Hd].
  - destruct Hfr as (_ & _ & Hh). eapply Hh; [|done]. simpl in Hne. congruence.
  - by intros ? [= <-].
Qed.

Lemma root_save save b env :
  MemoryBranch__save save b env
  = MemoryTree__save save (root_of b) None env.
Proof. induction b; simpl; done. Qed.

Lemma root_reload load b env :
  MemoryBranch__reload load b env
  = MemoryTree__reload load (root_of b) env.
Proof. induction b; simpl; done. Qed.

Lemma root_of_parent b : root_of (parent_of b) = root_of b.
Proof. by destruct b. Qed.

Section Reloading.
Variable load : string -> outcome Node.

(** a tree that is well kept reloads nothing *)
Lemma reload_well_kept t env w T :
  trees w !! t = Some T →
  well_kept w t →
  ∃ w', MemoryTree__reload load t env w = (w', Ret tt) ∧ same_data w w'.
Proof.
  intros Ht Hk. unfold MemoryTree__reload.
  destruct (_filename T) as [f|] eqn:Hf.
  - destruct (Hk T f Ht Hf) as (_ & _ & _ & [lr Hlr] & fl & Hfl & Hmt).
    destruct (lr + _loadsavedeadtime T * 1000 <? now env) eqn:Hdue.
    all: repeat (progress (unfold_prims; simpl;
           rewrite ?Ht, ?Hf, ?Hlr, ?Hdue, ?Hfl, ?Hmt; lookups)).
    + rewrite decide_True by done. eexists. split; [done|].
      by eapply same_data_insert.
    + by eexists.
  - repeat (progress (unfold_prims; simpl; rewrite ?Ht, ?Hf; lookups)).
    by eexists.
Qed.

End Reloading.

(** ** Item assignment *)

Lemma contains_inv obj k w w' b :
  contains obj k w = (w', Ret b) →
  w' = w ∧
  ((∃ a d, obj = VDict a ∧ heap w !! a = Some d
           ∧ b = bool_decide (is_Some (dict_get d k)))
   ∨ ∃ s, obj = VScalar (SStr s)).
Proof.
  unfold contains. destruct obj as [[]|a]; try done.
  - intros [= <- <-]. eauto.
  - destruct (heap w !! a) as [d|] eqn:Hd; [|done].
    intros [= <- <-]. split; [done|]. left. eauto.
Qed.

Lemma store_inv obj k v w w' :
  store obj k v w = (w', Ret tt) →
  ∃ a d, obj = VDict a ∧ heap w !! a = Some d
         ∧ w' = set_heap (<[a := dict_set d k v]> (heap w)) w.
Proof.
  unfold store. destruct obj as [|a]; [done|].
  destruct (heap w !! a) as [d|] eqn:Hd; [|done].
  intros [= <-]. eauto.
Qed.

Lemma dict_copy_inv obj w w' c :
  dict_copy obj w = (w', Ret c) →
  ∃ a d, obj = VDict a ∧ heap w !! a = Some d
         ∧ c = VDict (length (heap w))
         ∧ w' = set_heap (heap w ++ [d]) w.
Proof.
  unfold dict_copy, new_dict. destruct obj as [|a]; [done|].
  destruct (heap w !! a) as [d|] eqn:Hd; [|done].
  intros [= <- <-]. eauto 10.
Qed.

Section Assignment.
Variable load : string -> outcome Node.
Variable save : list pydict -> value -> outcome string.

(** A public item assignment that returns: the own dict [ab] of the
    branch receives [k], bound to [v] itself or, for a new key and a
    dict [v], to a new dict with the items of [v]; then comes one
    [_save]. *)
Lemma setitem_Ret b k v env w w' :
  is_private k = false →
  MemoryBranch___setitem__ save b k v env w = (w', Ret tt) →
  ∃ ab d x h1,
    MemoryBranch__data b w = (w, Ret (VDict ab)) ∧
    heap w !! ab = Some d ∧
    ((x = v ∧ h1 = heap w) ∨
     (dict_get d k = None ∧
      ∃ a dv, v = VDict a ∧ heap w !! a = Some dv
              ∧ x = VDict (length (heap w)) ∧ h1 = heap w ++ [dv])) ∧
    MemoryBranch__save save b env
      (set_heap (<[ab := dict_set d k x]> h1) w) = (w', Ret tt).
Proof.
  intros Hpub Hrun. unfold MemoryBranch___setitem__ in Hrun.
  apply bind_Ret in Hrun as (data & w0 & Hdata & Hrun).
  pose proof (data_world b w) as Hw. rewrite Hdata in Hw. simpl in Hw.
  subst w0.
  apply bind_Ret in Hrun as (present & w0 & Hin & Hrun).
  apply contains_inv in Hin as [-> Hin].
  assert (∀ w1 x, (data <~ MemoryBranch__data b;; store data k x) w
                    = (w1, Ret tt) →
          ∃ ab d, data = VDict ab ∧ heap w !! ab = Some d
                  ∧ w1 = set_heap (<[ab := dict_set d k x]> (heap w)) w)
    as Hstore.
  { intros w1 x H. rewrite (bind_run_Ret _ _ _ _ _ Hdata) in H.
    apply store_inv in H as (ab & d & -> & Hd & ->). eauto. }
  destruct present.
  - unfold MemoryBranch___setattr__ in Hrun. rewrite Hpub in Hrun.
    apply bind_Ret in Hrun as (data' & w0 & Hdata' & Hrun).
    rewrite Hdata in Hdata'. injection Hdata' as <- <-.
    apply bind_Ret in Hrun as ([] & w1 & Hst & Hrun).
    apply store_inv in Hst as (ab & d & -> & Hd & ->).
    exists ab, d, v, (heap w). eauto 10.
  - apply bind_Ret in Hrun as ([] & w1 & Hst & Hrun).
    destruct v as [sv|a]; simpl in Hst.
    + apply Hstore in Hst as (ab & d & -> & Hd & ->).
      exists ab, d, (VScalar sv), (heap w). eauto 10.
    + apply bind_Ret in Hst as (c & w2 & Hcopy & Hst).
      apply dict_copy_inv in Hcopy as (a' & dv & [= <-] & Hdv & -> & ->).
      erewrite bind_run_Ret in Hst; last first.
      { eapply resolve_frame; [apply frame_append|done|done]. }
      apply store_inv in Hst as (ab & d & -> & Hd & ->).
      destruct Hin as [(ab' & d' & [= <-] & Hd' & Hpres)|[s [=]]].
      simpl in Hd. rewrite (lookup_app_l_Some _ _ _ _ Hd') in Hd.
      injection Hd as <-.
      exists ab, d', (VDict (length (heap w))), (heap w ++ [dv]).
      split; [done|]. split; [done|]. split; [|done].
      right. split; [|eauto 10].
      symmetry in Hpres. apply bool_decide_eq_false in Hpres.
      destruct (dict_get d' k); [|done]. destruct Hpres. eauto.
Qed.


End Assignment.

(** ** Counting the saves *)

Lemma counts_heap_only {A} t (m : M A) : keeps heap_only m → counts t 0 m.
Proof.
  intros Hm w w' x Hrun. destruct (Hm _ _ _ Hrun) as (Ht & _).
  unfold saves. rewrite Ht. lia.
Qed.

Lemma counts_bind {A B} t n n' (m : M A) (k : A → M B) :
  counts t n m → (∀ a, counts t n' (k a)) → counts t (n + n') (bind m k).
Proof.
  intros Hm Hk w w' x Hrun.
  apply bind_Ret in Hrun as (a & w1 & Hm1 & Hk1).
  rewrite (Hk _ _ _ _ Hk1), (Hm _ _ _ Hm1). lia.
Qed.

Lemma counts_ret {A} t (a : A) : counts t 0 (ret a).
Proof. intros w w' x [= <- <-]. lia. Qed.

Section SaveCounter.
Variable load : string -> outcome Node.
Variable save : list pydict -> value -> outcome string.

Lemma counts_tree_save t d env : counts t 1 (MemoryTree__save save t d env).
Proof.
  intros w w' [] Hrun.
  destruct (save_Ret_tree _ _ _ _ _ _ Hrun) as [[T Ht] _].
  destruct (save_after_count _ _ _ _ _ _ _ _ Ht Hrun) as (_ & _ & Hq).
  specialize (Hq t). revert Hq.
  change (trees (set_trees ?x _)) with x.
  rewrite list_lookup_insert_eq by (by eapply lookup_lt_Some).
  unfold saves. rewrite Ht. inversion 1 as [? T' (_&_&_&_&_&Hc&_)|].
  by rewrite Hc.
Qed.

Lemma counts_save b env :
  counts (root_of b) 1 (MemoryBranch__save save b env).
Proof. rewrite root_save. apply counts_tree_save. Qed.

Lemma counts_setattr b name v env :
  is_private name = false →
  counts (root_of b) 1 (MemoryBranch___setattr__ save b name v env).
Proof.
  intros Hpub. unfold MemoryBranch___setattr__. rewrite Hpub.
  apply (counts_bind _ 0 1); [apply counts_heap_only, heap_only_data|].
  intros data.
  apply (counts_bind _ 0 1); [apply counts_heap_only, heap_only_store|].
  intros _. apply counts_save.
Qed.

Lemma counts_setitem b item v env :
  is_private item = false →
  counts (root_of b) 1 (MemoryBranch___setitem__ save b item v env).
Proof.
  intros Hpub. unfold MemoryBranch___setitem__.
  apply (counts_bind _ 0 1); [apply counts_heap_only, heap_only_data|].
  intros data.
  apply (counts_bind _ 0 1); [apply counts_heap_only, heap_only_contains|].
  intros [].
  - by apply counts_setattr.
  - apply (counts_bind _ 0 1); [|intros _; apply counts_save].
    apply counts_heap_only. repeat heap_step.
Qed.

Lemma counts_pop b name env :
  counts (root_of b) 1 (MemoryBranch__pop save b name env).
Proof.
  unfold MemoryBranch__pop.
  apply (counts_bind _ 0 1); [apply counts_heap_only, heap_only_data|].
  intros data.
  apply (counts_bind _ 0 1); [apply counts_heap_only, heap_only_pop|].
  intros v.
  apply (counts_bind _ 1 0); [apply counts_save|]. intros _. apply counts_ret.
Qed.

(** C5, amended: a mutating operation of a branch that returns normally
    and assigns no key starting with an underscore calls [tree._save()]
    once when it is a write, an item assignment, a bulk update, a removal
    or a text import, twice when it is an erase and three times when it
    is a rename: the save counter of the tree grows by that number. *)
Theorem save_calls_of_mutations b op env w w' :
  (∀ k, assigned_key op = Some k → is_private k = false) →
  perform load save b op env w = (w', Ret tt) →
  saves w' (root_of b) = saves w (root_of b) + save_calls op.
Proof.
  intros Hpub Hrun.
  cut (counts (root_of b) (save_calls op)
         (perform load save b op env)).
  { intros Hc. exact (Hc _ _ _ Hrun). }
  clear Hrun.
  destruct op as [name v|item v|new_dict|name|name| |yml]; simpl.
  - apply counts_setattr. by apply Hpub.
  - apply counts_setitem. by apply Hpub.
  - unfold MemoryBranch__update.
    apply (counts_bind _ 0 1); [apply counts_heap_only, heap_only_data|].
    intros data.
    apply (counts_bind _ 0 1); [apply counts_heap_only, heap_only_update|].
    intros _. apply counts_save.
  - apply (counts_bind _ 1 0); [apply counts_pop|]. intros _. apply counts_ret.
  - unfold MemoryBranch__rename.
    apply (counts_bind _ 1 2).
    { rewrite <- root_of_parent. apply counts_pop. }
    intros v.
    apply (counts_bind _ 1 1); [|intros _; apply counts_save].
    rewrite <- root_of_parent. apply counts_setitem. by apply Hpub.
  - unfold MemoryBranch__erase.
    apply (counts_bind _ 1 1); [|intros _; apply counts_save].
    rewrite <- root_of_parent. apply counts_pop.
  - unfold MemoryBranch__set_yml.
    apply (counts_bind _ 0 1); [apply counts_heap_only, keeps_lift; apply _|].
    intros n.
    apply (counts_bind _ 0 1); [apply counts_heap_only, heap_only_build|].
    intros branch.
    apply (counts_bind _ 0 1); [apply counts_heap_only, heap_only_data|].
    intros data.
    apply (counts_bind _ 0 1); [apply counts_heap_only, heap_only_store|].
    intros _. apply counts_save.
Qed.

End SaveCounter.

(** ** The deferred save *)

Lemma timeout_enabled_insert t x w T T' :
  trees w !! t = Some T →
  timeout_enabled t x (set_trees (<[t := T']> (trees w)) w)
  = match _savetimer T' with
    | Some tm =>
        match started tm with
        | Some s => bool_decide (s + interval tm ≤ x)
        | None => false
        end
    | None => false
    end.
Proof.
  intros Ht. unfold timeout_enabled.
  change (trees (set_trees ?x _)) with x.
  by rewrite list_lookup_insert_eq by (by eapply lookup_lt_Some).
Qed.

Section Debounce.
Variable save : list pydict -> value -> outcome string.

(** C7, amended: when [_save] is called with
    [now - _lastsave < deadtime] and the single-shot timer is not
    running, it writes no file and starts the timer; the timer fires once
    its own interval, set at construction, has elapsed from [now] (not
    after the remaining time [_lastsave + deadtime - now]), and firing
    it calls [_save()] again with the timer no longer running. *)
Theorem deferred_save_is_scheduled t d env w T f ls tm :
  trees w !! t = Some T →
  _filename T = Some f →
  _lastsave T = Some ls →
  _savetimer T = Some tm →
  isActive tm = false →
  singleShot tm = true →
  now env - ls < default (_loadsavedeadtime T) d * 1000 →
  ∃ w', MemoryTree__save save t d env w = (w', Ret tt)
    ∧ fs w' = fs w
    ∧ (∀ x, timeout_enabled t x w' = bool_decide (now env + interval tm ≤ x))
    ∧ (∀ env', timeout save t env' w'
               = MemoryTree__save save t None env' (disarmed t w'))
    ∧ (∀ x, timeout_enabled t x (disarmed t w') = false).
Proof.
  intros Ht Hf Hls Htm Hact Hss Hlt.
  rewrite (save_deferred _ _ _ _ _ _ _ _ _ Ht Hf Hls Htm) by lia.
  rewrite Hact. eexists. split; [done|]. split; [done|].
  split; [|split].
  - intros x. by erewrite timeout_enabled_insert.
  - intros env'. unfold timeout, disarmed.
    change (trees (set_trees ?x _)) with x.
    rewrite list_lookup_insert_eq by (by eapply lookup_lt_Some).
    repeat (progress (unfold_prims; simpl; rewrite ?Hss; lookups)).
    done.
  - intros x. unfold disarmed.
    change (trees (set_trees ?x _)) with x.
    rewrite list_lookup_insert_eq by (by eapply lookup_lt_Some).
    simpl. unfold timeout_enabled. simpl.
    by rewrite list_lookup_insert_eq
      by (rewrite length_insert; by eapply lookup_lt_Some).
Qed.

(** one assignment of a burst: no file is written, the timer runs *)
Lemma burst_step w w' t f ls D tm t1 a :
  debouncing w t f ls D tm →
  in_burst t ls D t1 a →
  MemoryBranch___setitem__ save (on_branch a) (key a) (val a) (at_env a) w
    = (w', Ret tt) →
  debouncing w' t f ls D (if isActive tm then tm else start (now (at_env a)) tm)
  ∧ fs w' = fs w.
Proof.
  intros (T & Ht & Hf & Hbuf & Hls & Hmt & HD & Htm) (Hroot & Hpub & Hwin & _).
  intros Hrun.
  apply setitem_Ret in Hrun as (ab & d & x & h1 & _ & _ & _ & Hsave); [|done].
  rewrite root_save, Hroot in Hsave.
  erewrite save_deferred in Hsave; [|exact Ht|done..|simpl; lia].
  injection Hsave as <-. split; [|done].
  change (trees (set_trees ?x (set_heap _ _))) with x.
  eexists. split.
  { change (trees (set_trees ?x _)) with x.
    apply list_lookup_insert_eq. by eapply lookup_lt_Some. }
  destruct (isActive tm); simpl; by rewrite ?Htm.
Qed.

Lemma burst_rest l : ∀ w w' t f ls D tm t1,
  debouncing w t f ls D tm →
  isActive tm = true →
  Forall (in_burst t ls D t1) l →
  run_assignments save l w = (w', Ret tt) →
  debouncing w' t f ls D tm ∧ fs w' = fs w.
Proof.
  induction l as [|a l IH]; intros w w' t f ls D tm t1 Hdeb Hact Hall Hrun.
  - by injection Hrun as <-.
  - simpl in Hrun. apply bind_Ret in Hrun as ([] & w1 & Ha & Hrun).
    inversion Hall as [|? ? Hina Hinl]; subst.
    destruct (burst_step _ _ _ _ _ _ _ _ _ Hdeb Hina Ha) as [Hdeb1 Hfs1].
    rewrite Hact in Hdeb1.
    destruct (IH _ _ _ _ _ _ _ _ Hdeb1 Hact Hinl Hrun) as [Hdeb' Hfs'].
    split; [done|congruence].
Qed.


End Debounce.

(** ** Loading and construction *)

Section Loading.
Variable load : string -> outcome Node.
Variable save : list pydict -> value -> outcome string.
Variable user_config_dir default_config_dir : string.
Variable path_split : string -> string * string.
Variable path_join : string -> string -> string.

(** C4, amended: [_load] on a file that the backend cannot parse raises
    the error of the backend to its caller and leaves the store as it
    was; on a file for which the backend returns [None] (an empty file)
    it returns normally and the root of the tree is a new, empty dict. *)
Theorem load_malformed_or_empty w t T f fl env :
  trees w !! t = Some T →
  _filename T = Some f →
  fs w !! f = Some fl →
  (∀ e, load (content fl) = Raise e →
        MemoryTree__load load t env w = (w, Raise e))
  ∧ (load (content fl) = Ret (Leaf SNone) →
     ∃ w', MemoryTree__load load t env w = (w', Ret tt)
       ∧ tree_data t w' = (w', Ret (VDict (length (heap w))))
       ∧ heap w' = heap w ++ [[]]
       ∧ fs w' = fs w).
Proof.
  intros Ht Hf Hfl. split.
  - intros e He. unfold MemoryTree__load.
    repeat (progress (unfold_prims; simpl; rewrite ?Ht, ?Hf, ?Hfl, ?He; lookups)).
    done.
  - intros He. unfold MemoryTree__load, build, new_dict, update_from.
    repeat (progress (unfold_prims; simpl; rewrite ?Ht, ?Hf, ?Hfl, ?He; lookups)).
    eexists. split; [done|]. unfold tree_data. simpl. lookups. done.
Qed.

(** what [__init__] leaves of a tree without file *)
Lemma init_in_memory source env w w' t :
  MemoryTree___init__ load user_config_dir default_config_dir
    path_split path_join None source env w = (w', Ret t) →
  ∃ T, trees w' !! t = Some T ∧ _filename T = None ∧ _savetimer T = None
       ∧ inst_data T = None.
Proof.
  unfold MemoryTree___init__. simpl get_config_file. intros H.
  apply bind_Ret in H as (f0 & w0 & [= <- <-] & H).
  apply bind_Ret in H as (wx & w0 & [= <- <-] & H).
  apply bind_Ret in H as ([] & w2 & [= <-] & H).
  set (T0 := MkTree None None None None None None None 3 0 []) in *.
  assert (trees (set_trees (trees w ++ [T0]) w) !! length (trees w) = Some T0)
    as Ht0.
  { simpl. rewrite lookup_app_r by lia. by rewrite Nat.sub_diag. }
  apply bind_Ret in H as ([] & w3 & Hload & H).
  unfold MemoryTree__load in Hload.
  rewrite (bind_run_Ret _ _ _ _ T0) in Hload
    by (unfold get_tree; by rewrite Ht0).
  injection Hload as <-.
  apply bind_Ret in H as ([] & w4 & Hset & H).
  apply set_tree_inv in Hset as (T1 & Ht1 & ->).
  apply bind_Ret in H as ([] & w5 & Hset & H).
  apply set_tree_inv in Hset as (T2 & Ht2 & ->).
  apply bind_Ret in H as (data & w6 & Hdata & H).
  apply bind_Ret in H as ([] & w7 & Hup & [= <- <-]).
  apply update_from_world in Hup as ->.
  unfold tree_data in Hdata. revert Hdata. case_match; [|done].
  intros Hdata. assert (w6 = set_trees (<[length (trees w) := with_defaults [] T2]> (trees (set_trees (<[length (trees w) := with_save_counter 0 T1]> (trees (set_trees (trees w ++ [T0]) w))) (set_trees (trees w ++ [T0]) w)))) (set_trees (<[length (trees w) := with_save_counter 0 T1]> (trees (set_trees (trees w ++ [T0]) w))) (set_trees (trees w ++ [T0]) w))) as ->.
  { by repeat case_match; simplify_eq. }
  rewrite Ht0 in Ht1. injection Ht1 as <-.
  revert Ht2. change (trees (set_trees ?x _)) with x.
  rewrite list_lookup_insert_eq by (by eapply lookup_lt_Some).
  intros [= <-].
  eexists. split.
  { simpl. apply list_lookup_insert_eq.
    rewrite length_insert, length_app. simpl. lia. }
  done.
Qed.


End Loading.

(** ** The atomic write *)

Section AtomicSave.
Variable save : list pydict -> value -> outcome string.

(** C1: when a save of a tree with a backing file reaches the write
    sequence and a step of it fails (an injected fault at [open], at the
    dump, at [unlink] or at [rename], or the backend raising), the save
    raises to its caller, and afterwards the target file holds the bytes
    it held before the save, as does the [.bak] copy they were restored
    from. *)
Theorem atomic_save_failure w t T f c m ls mt d env w' r root :
  trees w !! t = Some T →
  tree_data t w = (w, Ret root) →
  _filename T = Some f →
  _buffer_filename T = Some (f +:+ ".tmp")%string →
  _lastsave T = Some ls →
  _mtime T = Some mt →
  fs w !! f = Some (File c m) →
  ls + default (_loadsavedeadtime T) d * 1000 < now env →
  (is_Some (fault env) ∨ ∃ e, save (heap w) root = Raise e) →
  MemoryTree__save save t d env w = (w', r) →
  (∃ e, r = Raise e)
  ∧ content <$> fs w' !! f = Some c
  ∧ content <$> fs w' !! (f +:+ ".bak")%string = Some c.
Proof.
  intros Ht Hroot Hf Hbuf Hls Hmt Hfile Hlt Hfail Hrun.
  destruct (save_failure_cases save _ _ _ _ _ _ _ _ _ _ _ _ _
              Ht Hroot Hf Hbuf Hls Hmt Hfile Hlt Hrun) as [Hraise Hkeep].
  destruct (Hraise Hfail) as [e He]. split; [by exists e|]. by apply (Hkeep e).
Qed.

End AtomicSave.

(** ** Locating the configuration file *)

Section Locating.
Variable user_config_dir default_config_dir : string.
Variable path_split : string -> string * string.
Variable path_join : string -> string -> string.

Lemma first_isfile_run paths f fallback w :
  ∃ x, first_isfile path_join paths f fallback w = (w, Ret x).
Proof.
  induction paths as [|p paths IH]; simpl.
  - by eexists.
  - unfold bind, isfile. case_bool_decide; [by eexists|done].
Qed.

Lemma get_filename_run filename w :
  ∃ x, _get_filename user_config_dir default_config_dir path_split path_join
         filename w = (w, Ret x).
Proof.
  unfold _get_filename. destruct (path_split _) as [p f].
  apply first_isfile_run.
Qed.

Lemma get_config_file_run filename source env w :
  ∃ f w',
    get_config_file user_config_dir default_config_dir path_split path_join
      (Some filename) source env w = (w', Ret (Some f))
    ∧ is_Some (fs w' !! f)
    ∧ (∀ p, p ≠ f → fs w' !! p = fs w !! p)
    ∧ heap w' = heap w ∧ class_data w' = class_data w ∧ trees w' = trees w.
Proof.
  unfold get_config_file.
  destruct (get_filename_run filename w) as [x Hx].
  rewrite (bind_run_Ret _ _ _ _ _ Hx).
  unfold bind at 1, isfile at 1.
  case_bool_decide as Hfound.
  - destruct Hfound as [fl Hfl]. destruct (path_split x) as [p f].
    case_decide.
    + exists (path_join user_config_dir f). eexists.
      unfold copyfile, read_file, write_file, modify, bind, ret. rewrite Hfl.
      split; [done|]. simpl. split; [by rewrite lookup_insert_eq|].
      split; [|done]. intros q Hq. by rewrite lookup_insert_ne.
    + exists x, w. split; [done|]. by rewrite Hfl.
  - assert (∃ w', (write_file x "" (now env) ;;; ret (Some x)) w
                  = (w', Ret (Some x))
              ∧ is_Some (fs w' !! x)
              ∧ (∀ p, p ≠ x → fs w' !! p = fs w !! p)
              ∧ heap w' = heap w ∧ class_data w' = class_data w
              ∧ trees w' = trees w) as Hcreate.
    { eexists. split; [done|]. simpl. split; [by rewrite lookup_insert_eq|].
      split; [|done]. intros q Hq. by rewrite lookup_insert_ne. }
    destruct source as [source|]; [|by exists x].
    destruct (get_filename_run source w) as [y Hy].
    rewrite (bind_run_Ret _ _ _ _ _ Hy).
    unfold bind at 1, isfile at 1.
    case_bool_decide as Hsrc; [|by exists x].
    destruct Hsrc as [fl Hfl]. exists x. eexists.
    unfold copyfile, read_file, write_file, modify, bind, ret. rewrite Hfl.
    split; [done|]. simpl. split; [by rewrite lookup_insert_eq|].
    split; [|done]. intros q Hq. by rewrite lookup_insert_ne.
Qed.


End Locating.

(** ** Saving, continued *)

Section SaveOutcomes.
Variable load : string -> outcome Node.
Variable save : list pydict -> value -> outcome string.

(** X24: A save that is due on a tree whose file has disappeared raises
    [OSError] at [os.path.getmtime]: nothing is written, the file is not
    created again, and [_lastsave] has been set already. *)
Theorem save_of_missing_file_raises t d env w T f ls mt :
  trees w !! t = Some T →
  _filename T = Some f →
  _lastsave T = Some ls →
  _mtime T = Some mt →
  fs w !! f = None →
  ls + default (_loadsavedeadtime T) d * 1000 < now env →
  ∃ w', MemoryTree__save save t d env w = (w', Raise OSError)
    ∧ fs w' = fs w ∧ heap w' = heap w
    ∧ trees w' !! t
      = Some (with_lastsave (now env)
                (with_save_counter (_save_counter T + 1) T)).
Proof.
  intros Ht Hf Hls Hmt Hfile Hlt. apply Z.ltb_lt in Hlt.
  unfold MemoryTree__save.
  repeat (progress (unfold_prims; simpl;
            rewrite ?Ht, ?Hf, ?Hls, ?Hlt, ?Hmt, ?Hfile; lookups)).
  eexists. split; [done|]. simpl. split; [done|]. split; [done|].
  by lookups.
Qed.

(** X23: A save that is due and meets no failure: the target holds the
    rendering of the root, the [.bak] file holds what the target held
    before, no buffer file is left, and the tree remembers the instant
    as [_lastsave] and as the modification time of its file. *)
Theorem save_writes_and_keeps_backup t d env w T f ls mt root s fl :
  trees w !! t = Some T →
  _filename T = Some f →
  _buffer_filename T = Some (f +:+ ".tmp")%string →
  _lastsave T = Some ls →
  _mtime T = Some mt →
  fs w !! f = Some fl →
  ls + default (_loadsavedeadtime T) d * 1000 < now env →
  fault env = None →
  tree_data t w = (w, Ret root) →
  save (heap w) root = Ret s →
  ∃ w' T', MemoryTree__save save t d env w = (w', Ret tt)
    ∧ fs w' !! f = Some (File s (now env))
    ∧ fs w' !! (f +:+ ".bak")%string = Some (File (content fl) (now env))
    ∧ fs w' !! (f +:+ ".tmp")%string = None
    ∧ heap w' = heap w
    ∧ trees w' !! t = Some T'
    ∧ _lastsave T' = Some (now env) ∧ _mtime T' = Some (now env)
    ∧ _save_counter T' = _save_counter T + 1.
Proof.
  intros Ht Hf Hbuf Hls Hmt Hfl Hlt Hfault Hroot Hdump.
  destruct (save_flush save _ _ _ _ _ _ _ _ _ _ _
              Ht Hf Hbuf Hls Hmt Hfl Hlt Hfault Hroot Hdump)
    as (w' & Hrun & Hheap & Hfile & Htmp & Hbak & Htrees).
  exists w'. eexists. split; [done|].
  split; [done|]. split; [done|]. split; [done|]. split; [done|].
  split.
  { rewrite Htrees. apply list_lookup_insert_eq. by eapply lookup_lt_Some. }
  done.
Qed.

(** X25: The tree does not take its own write for a change made outside: after
    a [_save] that returns on a well-kept tree, a [_reload] at any instant
    returns without loading, and the data is what it was. *)
Theorem reload_after_save_loads_nothing t d env w w' :
  well_kept w t →
  MemoryTree__save save t d env w = (w', Ret tt) →
  ∀ env', ∃ w'', MemoryTree__reload load t env' w' = (w'', Ret tt)
                 ∧ same_data w w'' ∧ fs w'' = fs w'.
Proof.
  intros Hk Hrun env'.
  pose proof (save_well_kept _ _ _ _ _ _ Hk Hrun) as Hk'.
  destruct (save_Ret_tree _ _ _ _ _ _ Hrun) as [_ [T' HT']].
  destruct (reload_well_kept load _ env' _ _ HT' Hk') as (w'' & Hre & Hsd).
  exists w''. split; [done|]. split.
  { etrans; [by eapply save_keeps_data|done]. }
  revert Hre. unfold MemoryTree__reload.
  destruct (_filename T') as [f|] eqn:Hf; last first.
  { repeat (progress (unfold_prims; simpl; rewrite ?HT', ?Hf; lookups)).
    by intros [= <-]. }
  destruct (Hk' T' f HT' Hf) as (_ & _ & _ & [lr Hlr] & fl & Hfl & Hmt).
  destruct (lr + _loadsavedeadtime T' * 1000 <? now env') eqn:Hdue.
  all: repeat (progress (unfold_prims; simpl;
         rewrite ?HT', ?Hf, ?Hlr, ?Hdue, ?Hfl, ?Hmt; lookups)).
  - rewrite decide_True by done. by intros [= <-].
  - by intros [= <-].
Qed.

(** [_save_now]: the timer is stopped, and the save is due as long as
    the clock is not a second behind the last save *)
Lemma save_now_flush t env w T f ls mt tm root s fl :
  trees w !! t = Some T →
  _filename T = Some f →
  _buffer_filename T = Some (f +:+ ".tmp")%string →
  _lastsave T = Some ls →
  _mtime T = Some mt →
  _savetimer T = Some tm →
  fs w !! f = Some fl →
  ls - 1000 < now env →
  fault env = None →
  tree_data t w = (w, Ret root) →
  save (heap w) root = Ret s →
  ∃ w', MemoryTree__save_now save t env w = (w', Ret tt)
    ∧ fs w' !! f = Some (File s (now env))
    ∧ heap w' = heap w
    ∧ (∀ x, timeout_enabled t x w' = false)
    ∧ saves w' t = saves w t + 1.
Proof.
  intros Ht Hf Hbuf Hls Hmt Htm Hfl Hlt Hfault Hroot Hdump.
  set (T0 := if isActive tm then with_savetimer (stop tm) T else T).
  set (w0 := if isActive tm
             then set_trees (<[t := T0]> (trees w)) w else w).
  assert (stop_if_active t w = (w0, Ret tt)) as Hstop.
  { unfold stop_if_active, w0, T0. destruct (isActive tm) eqn:Hact.
    all: repeat (progress (unfold_prims; simpl; rewrite ?Ht, ?Htm, ?Hact;
                           lookups)); done. }
  assert (trees w0 !! t = Some T0 ∧ heap w0 = heap w ∧ fs w0 = fs w
          ∧ class_data w0 = class_data w) as (Ht0 & Hh0 & Hfs0 & Hc0).
  { unfold w0, T0. destruct (isActive tm); [|done]. simpl.
    split; [|done]. apply list_lookup_insert_eq. by eapply lookup_lt_Some. }
  assert (_savetimer T0 = Some (stop tm) ∨ (_savetimer T0 = Some tm
            ∧ isActive tm = false)) as Htm0.
  { unfold T0. destruct (isActive tm); [by left|by right]. }
  assert (_filename T0 = Some f ∧ _buffer_filename T0 = _buffer_filename T
          ∧ _lastsave T0 = Some ls ∧ _mtime T0 = Some mt
          ∧ inst_data T0 = inst_data T ∧ _save_counter T0 = _save_counter T)
    as (Hf0 & Hbuf0 & Hls0 & Hmt0 & Hi0 & Hc0').
  { unfold T0. by destruct (isActive tm). }
  destruct (save_flush save t (Some (-1)) env w0 T0 f ls mt root s fl)
    as (w1 & Hrun & Hheap & Hfile & _ & _ & Htrees); try done.
  - congruence.
  - congruence.
  - revert Hroot. unfold tree_data. rewrite Ht, Ht0, Hi0, Hc0.
    destruct (inst_data T); by intros [= <-].
  - by rewrite Hh0.
  - set (T1 := with_mtime (now env) (with_lastsave (now env)
                 (with_save_counter (_save_counter T0 + 1) T0))) in *.
    assert (trees w1 !! t = Some T1) as Ht1.
    { rewrite Htrees. apply list_lookup_insert_eq. by eapply lookup_lt_Some. }
    assert (∃ tm1, _savetimer T1 = Some tm1 ∧ isActive tm1 = false)
      as (tm1 & Htm1 & Hact1).
    { destruct Htm0 as [H|[H ?]]; simpl; rewrite H; eauto. }
    exists w1. split.
    { unfold MemoryTree__save_now.
      rewrite (bind_run_Ret _ _ _ _ _ Hstop).
      rewrite (bind_run_Ret _ _ _ _ _ Hrun).
      unfold stop_if_active.
      repeat (progress (unfold_prims; simpl; rewrite ?Ht1, ?Htm1, ?Hact1;
                        lookups)). done. }
    split; [done|]. split; [congruence|]. split.
    + intros x. unfold timeout_enabled. rewrite Ht1, Htm1.
      unfold isActive in Hact1. by destruct (started tm1).
    + unfold saves. rewrite Ht1, Ht. simpl. by rewrite Hc0'.
Qed.

End SaveOutcomes.

(** ** Files of the default directory *)

Section DefaultFiles.
Variable user_config_dir default_config_dir : string.
Variable path_split : string -> string * string.
Variable path_join : string -> string -> string.


End DefaultFiles.

(** ** Dicts, continued *)

Lemma dict_get_None d k : dict_get d k = None ↔ k ∉ d.*1.
Proof.
  induction d as [|[k' v'] d IH]; simpl.
  - split; [intros _; apply not_elem_of_nil|done].
  - rewrite not_elem_of_cons. case_decide as Hk; simpl.
    + split; [done|]. intros [? _]. congruence.
    + rewrite IH. split; [by intros ?; split; [congruence|]|by intros [_ ?]].
Qed.

Lemma dict_get_del d k k' :
  NoDup d.*1 →
  dict_get (dict_del d k) k' = if decide (k' = k) then None else dict_get d k'.
Proof.
  induction d as [|[k0 v0] d IH]; simpl; intros Hnd.
  - by case_decide.
  - apply NoDup_cons in Hnd as [Hk0 Hnd].
    destruct (decide (k0 = k)) as [->|Hne]; simpl.
    + destruct (decide (k' = k)) as [->|Hne'].
      * by apply dict_get_None.
      * by rewrite decide_False by done.
    + rewrite IH by done.
      destruct (decide (k0 = k')) as [->|]; [by rewrite decide_False|done].
Qed.

Lemma dict_update_snoc d items k v :
  dict_update d (items ++ [(k, v)]) = dict_set (dict_update d items) k v.
Proof. unfold dict_update. by rewrite fold_left_app. Qed.

Lemma dict_get_update d items k :
  dict_get (dict_update d items) k
  = match dict_get (reverse items) k with
    | Some v => Some v
    | None => dict_get d k
    end.
Proof.
  induction items as [|[k0 v0] items IH] using rev_ind; [done|].
  rewrite dict_update_snoc, reverse_snoc. simpl.
  destruct (decide (k0 = k)) as [->|Hne].
  - by rewrite dict_get_set_eq.
  - by rewrite dict_get_set_ne.
Qed.

(** ** The objects built for a document *)

Lemma Node_ind' (P : Node → Prop) :
  (∀ s, P (Leaf s)) →
  (∀ items, Forall (λ kv, P kv.2) items → P (Submapping items)) →
  ∀ n, P n.
Proof.
  intros Hleaf Hsub. fix IH 1. intros [s|items]; [apply Hleaf|].
  apply Hsub. induction items as [|kv r IHr]; constructor; [apply IH|apply IHr].
Qed.

(** the loader only adds objects *)
Lemma alloc_node_prefix n : ∀ h, ∃ l, (alloc_node n h).1 = h ++ l.
Proof.
  induction n as [s|items IH] using Node_ind'; intros h; simpl.
  - exists []. by rewrite app_nil_r.
  - match goal with
    | |- context [(let '(_, _) := ?F items h [] in _)] => set (alloc_items := F)
    end.
    assert (∀ acc h, ∃ l, (alloc_items items h acc).1 = h ++ l) as Hitems.
    { induction IH as [|[k c] r Hc _ IHr]; intros acc h0; simpl.
      - exists []. by rewrite app_nil_r.
      - simpl in Hc. destruct (Hc h0) as [l1 Hl1].
        destruct (alloc_node c h0) as [h1 v] eqn:Hcv. simpl in Hl1. subst h1.
        destruct (IHr (dict_set acc k v) (h0 ++ l1)) as [l2 Hl2].
        exists (l1 ++ l2). by rewrite Hl2, app_assoc. }
    destruct (Hitems [] h) as [l Hl].
    destruct (alloc_items items h []) as [h' d]. simpl in Hl. subst h'.
    simpl. exists (l ++ [d]). by rewrite app_assoc.
Qed.

Lemma build_run n w :
  build n w = (set_heap (alloc_node n (heap w)).1 w, Ret (alloc_node n (heap w)).2).
Proof. unfold build. by destruct (alloc_node n (heap w)). Qed.

Lemma frame_build n w : frame None w (set_heap (alloc_node n (heap w)).1 w).
Proof.
  destruct (alloc_node_prefix n (heap w)) as [l ->]. apply frame_append.
Qed.

(** ** Removing, renaming, merging and importing *)

Lemma own_get_at w b ab d k :
  MemoryBranch__data b w = (w, Ret (VDict ab)) →
  heap w !! ab = Some d →
  own_get w b k = dict_get d k.
Proof. intros Hdata Hd. unfold own_get, own_dict. by rewrite Hdata, Hd. Qed.

(** the ancestors of a branch that resolves are the same in a store that
    keeps their dicts *)
Lemma visited_frame a w w' b v :
  frame a w w' →
  (∀ x, a = Some x → x ∉ visited w b) →
  MemoryBranch__data b w = (w, Ret v) →
  visited w' b = visited w b.
Proof.
  intros Hfr. revert v. induction b as [t|p IH n ds]; intros v Hv Hdata; [done|].
  simpl in *. apply bind_Ret in Hdata as (dv & w1 & Hp & Hsub).
  pose proof (data_world p w) as Hw. rewrite Hp in Hw. simpl in Hw. subst w1.
  apply subscript_inv in Hsub as (_ & x & dx & -> & Hx & Hk).
  rewrite Hp in Hv.
  assert (∀ y, a = Some y → y ∉ visited w p) as Hv'.
  { intros y Hy. specialize (Hv y Hy). set_solver. }
  rewrite Hp, (resolve_frame _ _ _ _ _ Hfr Hv' Hp). f_equal. by eapply IH.
Qed.

Section Mutations.
Variable load : string -> outcome Node.
Variable save : list pydict -> value -> outcome string.

(** the own dict of a branch, rewritten and then saved through a branch
    of the same or of another tree *)
Lemma rewritten_and_saved b q env w w' ab h1 :
  MemoryBranch__data b w = (w, Ret (VDict ab)) →
  ab ∉ visited w b →
  (∀ x dx, x ≠ ab → heap w !! x = Some dx → h1 !! x = Some dx) →
  MemoryBranch__save save q env (set_heap h1 w) = (w', Ret tt) →
  MemoryBranch__data b w' = (w', Ret (VDict ab)) ∧ heap w' = h1
  ∧ frame (Some ab) w w'.
Proof.
  intros Hdata Hanc Hh1 Hsave. rewrite root_save in Hsave.
  pose proof (save_keeps_data _ _ _ _ _ _ _ Hsave) as Hsd.
  assert (frame (Some ab) w (set_heap h1 w)) as Hfr1.
  { split; [done|]. split; [done|]. intros x dx Hne Hx. simpl.
    apply Hh1; [congruence|done]. }
  assert (frame (Some ab) w w') as Hfr.
  { eapply frame_trans; [done|]. by apply same_data_frame. }
  split; [|split; [by destruct Hsd as (-> & _)|done]].
  eapply (resolve_frame (Some ab)); [done|by intros ? [= <-]|done].
Qed.

Lemma pop_Ret b name env w w' v :
  MemoryBranch__pop save b name env w = (w', Ret v) →
  ∃ ab d, MemoryBranch__data b w = (w, Ret (VDict ab))
    ∧ heap w !! ab = Some d ∧ dict_get d name = Some v
    ∧ MemoryBranch__save save b env
        (set_heap (<[ab := dict_del d name]> (heap w)) w) = (w', Ret tt).
Proof.
  unfold MemoryBranch__pop. intros Hrun.
  apply bind_Ret in Hrun as (data & w0 & Hdata & Hrun).
  pose proof (data_world b w) as Hw. rewrite Hdata in Hw. simpl in Hw.
  subst w0.
  apply bind_Ret in Hrun as (v' & w1 & Hpop & Hrun).
  apply bind_Ret in Hrun as ([] & w2 & Hsave & [= <- <-]).
  revert Hpop. unfold pop. destruct data as [|ab]; [done|].
  destruct (heap w !! ab) as [d|] eqn:Hd; [|done].
  destruct (dict_get d name) as [v0|] eqn:Hv; [|done].
  intros [= <- <-]. eauto 10.
Qed.

(** the store after a removal that returns *)
Lemma pop_result b name env w w' v ab d :
  MemoryBranch__data b w = (w, Ret (VDict ab)) →
  heap w !! ab = Some d →
  ab ∉ visited w b →
  MemoryBranch__pop save b name env w = (w', Ret v) →
  dict_get d name = Some v
  ∧ MemoryBranch__data b w' = (w', Ret (VDict ab))
  ∧ heap w' = <[ab := dict_del d name]> (heap w)
  ∧ frame (Some ab) w w'.
Proof.
  intros Hdata Hd Hanc Hrun.
  apply pop_Ret in Hrun as (ab' & d' & Hdata' & Hd' & Hv & Hsave).
  rewrite Hdata in Hdata'. injection Hdata' as <-.
  rewrite Hd in Hd'. injection Hd' as <-.
  split; [done|].
  eapply rewritten_and_saved; [done|done| |done].
  intros x dx Hne Hx. by rewrite list_lookup_insert_ne.
Qed.

(** X15: [_pop] of a key that the branch holds returns its value and removes
    the key from the own data of the branch; the other keys keep their
    values. *)
Theorem pop_removes_key b name env w w' v ab d :
  MemoryBranch__data b w = (w, Ret (VDict ab)) →
  heap w !! ab = Some d →
  NoDup d.*1 →
  ab ∉ visited w b →
  MemoryBranch__pop save b name env w = (w', Ret v) →
  own_get w b name = Some v
  ∧ ∀ k, own_get w' b k = if decide (k = name) then None else own_get w b k.
Proof.
  intros Hdata Hd Hnd Hanc Hrun.
  destruct (pop_result _ _ _ _ _ _ _ _ Hdata Hd Hanc Hrun)
    as (Hv & Hdata' & Hheap & _).
  rewrite !(own_get_at w b ab d) by done. split; [done|]. intros k.
  rewrite (own_get_at w b ab d) by done.
  rewrite (own_get_at w' b ab (dict_del d name)); [by apply dict_get_del|done|].
  rewrite Hheap. apply list_lookup_insert_eq. by eapply lookup_lt_Some.
Qed.

Lemma pop_missing b name env w :
  is_Some (own_dict w b) →
  own_get w b name = None →
  MemoryBranch__pop save b name env w = (w, Raise KeyError).
Proof.
  unfold own_get, own_dict. rewrite (data_run b w).
  destruct (MemoryBranch__data b w).2 as [[s|ab]|e] eqn:Hdata;
    try (by intros [? [=]]).
  intros [d Hd]. rewrite Hd. intros Hk.
  unfold MemoryBranch__pop.
  erewrite bind_run_Ret by (by rewrite (data_run b w), Hdata).
  unfold bind, pop. by rewrite Hd, Hk.
Qed.

(** X16: [_pop] of a key that the own data of the branch does not hold
    raises [KeyError]: the store is as before, nothing is written and no
    save is counted. *)
Theorem pop_of_missing_key_raises b name env w :
  is_Some (own_dict w b) →
  own_get w b name = None →
  MemoryBranch__pop save b name env w = (w, Raise KeyError).
Proof. apply pop_missing. Qed.

(** X17: [_erase] and [_rename] of a branch whose name the own data of
    its parent does not hold raise [KeyError] and leave the store as it
    is; so they do for the tree itself, whose name is [""] and whose
    parent is the tree. *)
Theorem erase_of_missing_branch_raises b name env w :
  is_Some (own_dict w (parent_of b)) →
  own_get w (parent_of b) (name_of b) = None →
  MemoryBranch__erase save b env w = (w, Raise KeyError)
  ∧ MemoryBranch__rename save b name env w = (w, Raise KeyError).
Proof.
  intros Hd Hk.
  pose proof (pop_missing _ _ env _ Hd Hk) as Hpop.
  unfold MemoryBranch__erase, MemoryBranch__rename.
  by rewrite !(bind_run_Raise _ _ _ _ _ Hpop).
Qed.

(** X18: [_erase] of a branch that its parent holds: afterwards the branch is
    absent from the tree, and the other entries of the parent are as
    before. *)
Theorem erase_removes_branch p n ds env w w' ap d :
  MemoryBranch__data p w = (w, Ret (VDict ap)) →
  heap w !! ap = Some d →
  NoDup d.*1 →
  ap ∉ visited w p →
  MemoryBranch__erase save (Branch p n ds) env w = (w', Ret tt) →
  MemoryBranch__data (Branch p n ds) w' = (w', Raise KeyError)
  ∧ ∀ k, k ≠ n → own_get w' p k = own_get w p k.
Proof.
  intros Hdata Hd Hnd Hanc Hrun. unfold MemoryBranch__erase in Hrun.
  apply bind_Ret in Hrun as (v & w1 & Hpop & Hsave). simpl in Hpop, Hsave.
  destruct (pop_result _ _ _ _ _ _ _ _ Hdata Hd Hanc Hpop)
    as (Hv & Hdata1 & Hheap1 & Hfr1).
  rewrite root_save in Hsave.
  pose proof (save_keeps_data _ _ _ _ _ _ _ Hsave) as Hsd.
  assert (MemoryBranch__data p w' = (w', Ret (VDict ap))) as Hdata'.
  { eapply (resolve_frame None); [by apply same_data_frame|done|done]. }
  assert (heap w' !! ap = Some (dict_del d n)) as Hd'.
  { destruct Hsd as (-> & _). rewrite Hheap1.
    apply list_lookup_insert_eq. by eapply lookup_lt_Some. }
  split.
  - simpl. rewrite (bind_run_Ret _ _ _ _ _ Hdata'). unfold subscript.
    rewrite Hd', dict_get_del by done. by rewrite decide_True.
  - intros k Hne. rewrite (own_get_at w' p ap (dict_del d n)) by done.
    rewrite (own_get_at w p ap d) by done.
    rewrite dict_get_del by done. by rewrite decide_False.
Qed.


(** X20: [_set_yml] binds the name of the branch, in the own data of its
    parent, to the objects built from the text: what the branch held is
    replaced, not merged, and the other entries of the parent are as
    before.  For the tree itself the name is [""], bound in the root. *)
Theorem set_yml_replaces_branch b text env w w' n ap d :
  load text = Ret n →
  MemoryBranch__data (parent_of b) w = (w, Ret (VDict ap)) →
  heap w !! ap = Some d →
  ap ∉ visited w (parent_of b) →
  MemoryBranch__set_yml load save b text env w = (w', Ret tt) →
  own_get w' (parent_of b) (name_of b) = Some (alloc_node n (heap w)).2
  ∧ (∀ k, k ≠ name_of b → own_get w' (parent_of b) k = own_get w (parent_of b) k)
  ∧ heap w' = <[ap := dict_set d (name_of b) (alloc_node n (heap w)).2]>
                (alloc_node n (heap w)).1.
Proof.
  intros Hload Hdata Hd Hanc Hrun. unfold MemoryBranch__set_yml in Hrun.
  rewrite Hload in Hrun. unfold lift, bind at 1 in Hrun.
  rewrite (bind_run_Ret _ _ _ _ _ (build_run n w)) in Hrun.
  set (h1 := (alloc_node n (heap w)).1) in *.
  set (v := (alloc_node n (heap w)).2) in *.
  set (w1 := set_heap h1 w) in *.
  pose proof (frame_build n w) as Hfr1. fold h1 in Hfr1. fold w1 in Hfr1.
  assert (MemoryBranch__data (parent_of b) w1 = (w1, Ret (VDict ap))) as Hdata1.
  { eapply (resolve_frame None); [done|done|done]. }
  assert (heap w1 !! ap = Some d) as Hd1.
  { destruct Hfr1 as (_ & _ & Hh). by eapply Hh. }
  rewrite (bind_run_Ret _ _ _ _ _ Hdata1) in Hrun.
  apply bind_Ret in Hrun as ([] & w2 & Hst & Hsave).
  revert Hst. unfold store. rewrite Hd1. intros [= <-].
  change (set_heap ?h w1) with (set_heap h w) in Hsave.
  destruct (rewritten_and_saved _ _ _ _ _ _ _ Hdata Hanc
              ltac:(intros x dx Hne Hx; rewrite list_lookup_insert_ne by done;
                    destruct Hfr1 as (_ & _ & Hh); by eapply Hh) Hsave)
    as (Hdata' & Hheap & _).
  assert (heap w' !! ap = Some (dict_set d (name_of b) v)) as Hd'.
  { rewrite Hheap. apply list_lookup_insert_eq. by eapply lookup_lt_Some. }
  split; [|split; [|done]].
  - rewrite (own_get_at w' _ ap _ _ Hdata' Hd'). apply dict_get_set_eq.
  - intros k Hne. rewrite (own_get_at w' _ ap _ _ Hdata' Hd').
    rewrite (own_get_at w _ ap _ _ Hdata Hd). by apply dict_get_set_ne.
Qed.

(** X19: [_rename] moves what the parent holds under the name of the branch
    to the new name, as [__setitem__] stores it there (a dict under a new
    key is copied); the old name is removed, so that the branch object,
    which keeps its name, no longer resolves. *)
Theorem rename_moves_branch p n ds name env w w' ap d v :
  is_private name = false →
  MemoryBranch__data p w = (w, Ret (VDict ap)) →
  heap w !! ap = Some d →
  NoDup d.*1 →
  ap ∉ visited w p →
  dict_get d n = Some v →
  v ≠ VDict ap →
  MemoryBranch__rename save (Branch p n ds) name env w = (w', Ret tt) →
  ∃ x, equal_to (heap w) v (heap w') x
    ∧ (∀ k, own_get w' p k
            = if decide (k = name) then Some x
              else if decide (k = n) then None else own_get w p k)
    ∧ (name ≠ n →
       MemoryBranch__data (Branch p n ds) w' = (w', Raise KeyError)).
Proof.
  intros Hpub Hdata Hd Hnd Hanc Hv Hcyc Hrun.
  unfold MemoryBranch__rename in Hrun.
  apply bind_Ret in Hrun as (v' & w1 & Hpop & Hrun). simpl in Hpop, Hrun.
  destruct (pop_result _ _ _ _ _ _ _ _ Hdata Hd Hanc Hpop)
    as (Hv' & Hdata1 & Hheap1 & Hfr1).
  rewrite Hv in Hv'. injection Hv' as <-.
  apply bind_Ret in Hrun as ([] & w2 & Hset & Hsave).
  apply setitem_Ret in Hset as (ab' & d' & x & h1 & Hdata1' & Hd1 & Hx & Hsave1);
    [|done].
  rewrite Hdata1 in Hdata1'. injection Hdata1' as <-.
  assert (ap < length (heap w))%nat as Hlt by (by eapply lookup_lt_Some).
  rewrite Hheap1, list_lookup_insert_eq in Hd1 by done.
  injection Hd1 as <-.
  assert (ap ∉ visited w1 p) as Hanc1.
  { by rewrite (visited_frame (Some ap) w w1 p (VDict ap) Hfr1
                  ltac:(by intros ? [= <-]) Hdata). }
  assert (length (heap w1) = length (heap w)) as Hlen.
  { by rewrite Hheap1, length_insert. }
  assert (∀ y dy, y ≠ ap → heap w1 !! y = Some dy → h1 !! y = Some dy) as Hh1.
  { intros y dy Hne Hy.
    destruct Hx as [[_ ->]|(_ & a & dv & _ & _ & _ & ->)]; [done|].
    by apply lookup_app_l_Some. }
  assert (ap < length h1)%nat as Hlt1.
  { destruct Hx as [[_ ->]|(_ & a & dv & _ & _ & _ & ->)];
      rewrite ?length_app; lia. }
  destruct (rewritten_and_saved _ _ _ _ _ _ _ Hdata1 Hanc1
              ltac:(intros y dy Hne Hy; rewrite list_lookup_insert_ne by done;
                    by apply Hh1) Hsave1)
    as (Hdata2 & Hheap2 & Hfr2).
  rewrite root_save in Hsave.
  pose proof (save_keeps_data _ _ _ _ _ _ _ Hsave) as Hsd.
  assert (MemoryBranch__data p w' = (w', Ret (VDict ap))) as Hdata'.
  { eapply (resolve_frame None); [by apply same_data_frame|done|done]. }
  assert (heap w' = <[ap := dict_set (dict_del d n) name x]> h1) as Hheap'.
  { destruct Hsd as (-> & _). done. }
  assert (heap w' !! ap = Some (dict_set (dict_del d n) name x)) as Hd'.
  { rewrite Hheap'. by apply list_lookup_insert_eq. }
  exists x. split; [|split].
  - destruct Hx as [[-> _]|(_ & a & dv & -> & Ha & -> & ->)]; [by left|].
    right. exists a, (length (heap w1)). split; [done|]. split; [done|].
    rewrite Hheap', list_lookup_insert_ne by lia.
    rewrite lookup_app_r by lia. rewrite Nat.sub_diag. simpl.
    rewrite Hheap1, list_lookup_insert_ne in Ha by congruence. done.
  - intros k. rewrite (own_get_at w' _ ap _ _ Hdata' Hd').
    rewrite (own_get_at w _ ap _ _ Hdata Hd).
    destruct (decide (k = name)) as [->|Hne].
    + apply dict_get_set_eq.
    + rewrite dict_get_set_ne by done. by apply dict_get_del.
  - intros Hne. simpl. rewrite (bind_run_Ret _ _ _ _ _ Hdata').
    unfold subscript. rewrite Hd', dict_get_set_ne by done.
    rewrite dict_get_del by done. by rewrite decide_True.
Qed.


End Mutations.

(** ** Dicts: keys *)

Lemma dict_get_app d1 d2 k :
  dict_get (d1 ++ d2) k
  = match dict_get d1 k with Some v => Some v | None => dict_get d2 k end.
Proof.
  induction d1 as [|[k' v'] d1 IH]; simpl; [done|]. by case_decide.
Qed.

Lemma dict_get_reverse d k :
  NoDup d.*1 → dict_get (reverse d) k = dict_get d k.
Proof.
  induction d as [|[k0 v0] d IH]; simpl; intros Hnd; [done|].
  apply NoDup_cons in Hnd as [Hk0 Hnd].
  rewrite reverse_cons, dict_get_app, IH by done. simpl.
  case_decide as Hk; [|by destruct (dict_get d k)].
  subst. apply dict_get_None in Hk0. by rewrite Hk0.
Qed.

Lemma dict_set_keys_in d k v : k ∈ d.*1 → (dict_set d k v).*1 = d.*1.
Proof.
  induction d as [|[k0 v0] d IH]; simpl; intros Hin.
  - by apply elem_of_nil in Hin.
  - destruct (decide (k0 = k)) as [->|Hne]; simpl; [done|].
    apply elem_of_cons in Hin as [?|Hin]; [congruence|]. f_equal. by apply IH.
Qed.

Lemma dict_set_keys_notin d k v :
  k ∉ d.*1 → (dict_set d k v).*1 = d.*1 ++ [k].
Proof.
  induction d as [|[k0 v0] d IH]; simpl; intros Hnin; [done|].
  apply not_elem_of_cons in Hnin as [Hne Hnin].
  rewrite decide_False by congruence. simpl. f_equal. by apply IH.
Qed.

Lemma dict_set_NoDup d k v : NoDup d.*1 → NoDup (dict_set d k v).*1.
Proof.
  intros Hnd. destruct (decide (k ∈ d.*1)) as [Hin|Hnin].
  - by rewrite dict_set_keys_in.
  - rewrite dict_set_keys_notin by done.
    apply NoDup_app. split; [done|]. split; [|apply NoDup_singleton].
    intros x Hx Hx'. apply list_elem_of_singleton in Hx'. by subst.
Qed.

Lemma dict_update_NoDup d items :
  NoDup d.*1 → NoDup (dict_update d items).*1.
Proof.
  revert d. unfold dict_update.
  induction items as [|[k v] items IH]; intros d Hnd; simpl; [done|].
  apply IH. by apply dict_set_NoDup.
Qed.

(** ** Reading through a branch, continued *)

Lemma data_same_data b w w' :
  same_data w w' →
  MemoryBranch__data b w' = (w', (MemoryBranch__data b w).2).
Proof.
  intros (Hh & Hc & Hi). induction b as [t|p IH n ds]; simpl.
  - unfold tree_data. specialize (Hi t).
    destruct (trees w !! t) as [T|], (trees w' !! t) as [T'|]; try done.
    simpl in Hi. injection Hi as ->. rewrite Hc. by destruct (inst_data T).
  - unfold bind. rewrite IH, (data_run p w).
    destruct (MemoryBranch__data p w).2 as [d|e]; simpl; [|done].
    unfold subscript. rewrite Hh. by repeat case_match.
Qed.

Lemma own_get_same_data b w w' k :
  same_data w w' → own_get w' b k = own_get w b k.
Proof.
  intros Hsd. unfold own_get, own_dict.
  rewrite (data_same_data b w w' Hsd), (data_run b w).
  destruct Hsd as (-> & _). done.
Qed.

Lemma search_defaults_spec w ds k :
  Forall (mapping_or_absent w) ds →
  search_defaults ds k w
  = (w, match first_holding w ds k with
        | Some v => Ret v
        | None => Raise KeyError
        end).
Proof.
  induction 1 as [|d ds Hd _ IH]; simpl; [done|].
  unfold except_KeyError. rewrite (own_item_spec _ _ _ Hd).
  by destruct (own_get w d k).
Qed.

Section Lookup.
Variable load : string -> outcome Node.

Lemma getitem_general b k env w w1 ds :
  MemoryBranch__reload load b env w = (w1, Ret tt) →
  defaults_of b w1 = (w1, Ret ds) →
  Forall (mapping_or_absent w1) (b :: ds) →
  MemoryBranch___getitem__ load b k env w
  = (w1, match first_holding w1 (b :: ds) k with
         | Some v => Ret v
         | None => Raise KeyError
         end).
Proof.
  intros Hre Hds Hall. apply Forall_cons in Hall as [Hb Hall].
  unfold MemoryBranch___getitem__, bind at 1. rewrite Hre.
  unfold except_KeyError at 1. rewrite (own_item_spec _ _ _ Hb). simpl.
  destruct (own_get w1 b k); [done|].
  unfold bind. rewrite Hds. by apply search_defaults_spec.
Qed.


(** the reload of a tree that is well kept *)
Lemma reload_kept t env w :
  well_kept w t →
  is_Some (trees w !! t) →
  ∃ w', MemoryTree__reload load t env w = (w', Ret tt)
    ∧ same_data w w' ∧ fs w' = fs w ∧ well_kept w' t
    ∧ is_Some (trees w' !! t).
Proof.
  intros Hk [T Ht]. unfold MemoryTree__reload.
  destruct (_filename T) as [f|] eqn:Hf.
  - destruct (Hk T f Ht Hf) as (Hbuf & Hls & Htm & [lr Hlr] & fl & Hfl & Hmt).
    destruct (lr + _loadsavedeadtime T * 1000 <? now env) eqn:Hdue.
    all: repeat (progress (unfold_prims; simpl;
           rewrite ?Ht, ?Hf, ?Hlr, ?Hdue, ?Hfl, ?Hmt; lookups)).
    + rewrite decide_True by done. eexists. split; [done|].
      split; [by eapply same_data_insert|]. split; [done|].
      assert (trees (set_trees (<[t := with_lastreload (now env) T]> (trees w)) w)
              !! t = Some (with_lastreload (now env) T)) as Ht'.
      { simpl. apply list_lookup_insert_eq. by eapply lookup_lt_Some. }
      split; [|by eexists].
      intros T' f'. rewrite Ht'. intros [= <-]. simpl. rewrite Hf.
      intros [= <-]. rewrite Hfl. eauto 10.
    + eexists. split; [done|]. split; [done|]. split; [done|].
      split; [done|by eexists].
  - repeat (progress (unfold_prims; simpl; rewrite ?Ht, ?Hf; lookups)).
    eexists. split; [done|]. split; [done|]. split; [done|].
    split; [done|by eexists].
Qed.

End Lookup.

(** ** The merged view *)

Lemma merge_defaults_plain f l dxs d :
  Forall2 (λ x dx, f x = Some (Ret dx)) l dxs →
  merge_defaults f l d = Some (Ret (fold_left dict_update dxs d)).
Proof.
  intros H. revert d. induction H as [|x dx l dxs Hx _ IH]; intros d; simpl.
  - done.
  - by rewrite Hx, IH.
Qed.

Lemma dict_get_merged dxs : ∀ d k,
  dict_get (fold_left dict_update (reverse dxs) d) k
  = match list_find (λ dx, is_Some (dict_get (reverse dx) k)) dxs with
    | Some (_, dx) => dict_get (reverse dx) k
    | None => dict_get d k
    end.
Proof.
  induction dxs as [|dx dxs IH]; intros d k; [done|].
  rewrite reverse_cons, fold_left_app. simpl.
  rewrite dict_get_update. case_decide as Hk.
  - simpl. by destruct Hk as [v ->].
  - simpl. destruct (dict_get (reverse dx) k) eqn:Hdx; [by destruct Hk|].
    rewrite IH. by destruct (list_find _ dxs) as [[i dy]|].
Qed.


(** ** Dot notation *)

(** the constructor without defaults, as [__getattribute__] calls it, is
    [MemoryBranch.__init__] with any bound on the nesting *)
Lemma new_subbranch_is_init depth p n w :
  MemoryBranch___init__ (S depth) p n [] w
  = match new_subbranch p n w with
    | (w', Ret b) => (w', Ret (Some b))
    | (w', Raise e) => (w', Raise e)
    end.
Proof.
  unfold MemoryBranch___init__, MemoryBranch__set_defaults, new_subbranch.
  cbn [MemoryBranch__dict defaults_of]. unfold ret at 1.
  cbn [reverse rev_append merge_defaults].
  unfold bind at 1. rewrite (data_run (Branch p n []) w).
  destruct (MemoryBranch__data (Branch p n []) w).2 as [data|e]; [|done].
  unfold bind, get_world, lift, ret.
  by destruct (updated_with [] data w).
Qed.

Lemma new_subbranch_run p n w a :
  MemoryBranch__data (Branch p n []) w = (w, Ret (VDict a)) →
  is_Some (heap w !! a) →
  new_subbranch p n w = (w, Ret (Branch p n [])).
Proof.
  intros Hdata [d Hd]. unfold new_subbranch. cbv zeta.
  rewrite (bind_run_Ret _ _ _ _ _ Hdata).
  unfold bind, get_world, lift, updated_with, ret. by rewrite Hd.
Qed.

Lemma new_subbranch_raise p n w e :
  MemoryBranch__data (Branch p n []) w = (w, Raise e) →
  new_subbranch p n w = (w, Raise e).
Proof.
  intros Hdata. unfold new_subbranch. cbv zeta.
  by rewrite (bind_run_Raise _ _ _ _ _ Hdata).
Qed.

Section Dots.
Variable load : string -> outcome Node.



End Dots.

(** ** Branch names *)

Lemma str_split_plain sep n : lacks sep n = true → str_split sep n = [n].
Proof.
  induction n as [|c n IH]; simpl; [done|].
  destruct (Ascii.eqb c sep); simpl; [done|]. intros Hn. by rewrite IH.
Qed.

Lemma str_split_app sep n rest :
  lacks sep n = true →
  str_split sep (n +:+ String sep rest) = n :: str_split sep rest.
Proof.
  induction n as [|c n IH]; simpl.
  - by rewrite Ascii.eqb_refl.
  - destruct (Ascii.eqb c sep); simpl; [done|]. intros Hn. by rewrite IH.
Qed.

Lemma str_split_fullbranchname_loop p : ∀ acc,
  Forall (λ s, lacks "." s = true) (names_of p) →
  str_split "." (fullbranchname_loop p acc) = names_of p ++ str_split "." acc.
Proof.
  induction p as [t|p IH n ds]; intros acc Hall; simpl; [done|].
  apply Forall_app in Hall as [Hp Hn]. rewrite Forall_singleton in Hn.
  rewrite (IH _ Hp).
  change (n +:+ "." +:+ acc)%string with (n +:+ String "." acc)%string.
  rewrite str_split_app by exact Hn. by rewrite <- app_assoc.
Qed.

Lemma extend_names b :
  extend (Tree (root_of b)) (names_of b) = without_defaults b.
Proof.
  induction b as [t|p IH n ds]; simpl; [done|].
  unfold extend in *. rewrite fold_left_app. simpl. by rewrite IH.
Qed.

Lemma data_without_defaults b w :
  MemoryBranch__data (without_defaults b) w = MemoryBranch__data b w.
Proof.
  induction b as [t|p IH n ds]; simpl; [done|]. unfold bind. by rewrite IH.
Qed.

Lemma root_is_tree b : MemoryBranch__root b = Tree (root_of b).
Proof. induction b; simpl; done. Qed.

Lemma root_of_extend cur names : root_of (extend cur names) = root_of cur.
Proof.
  revert cur. induction names as [|n names IH]; intros cur; simpl; [done|].
  unfold extend in *. simpl. by rewrite IH.
Qed.

Lemma data_extend_inv rest : ∀ c w v,
  MemoryBranch__data (extend c rest) w = (w, Ret v) →
  ∃ v', MemoryBranch__data c w = (w, Ret v')
    ∧ (rest = [] → v' = v)
    ∧ (rest ≠ [] → ∃ a, v' = VDict a ∧ is_Some (heap w !! a)).
Proof.
  induction rest as [|r rest IH]; intros c w v Hdata.
  - exists v. by split.
  - apply (IH (Branch c r [])) in Hdata as (v' & Hdata & _ & _).
    simpl in Hdata. apply bind_Ret in Hdata as (dv & w1 & Hc & Hsub).
    pose proof (data_world c w) as Hw. rewrite Hc in Hw. simpl in Hw. subst w1.
    apply subscript_inv in Hsub as (_ & a & d & -> & Ha & _).
    exists (VDict a). split; [done|]. split; [done|]. intros _. eauto.
Qed.

Lemma data_Ret_tree b w v :
  MemoryBranch__data b w = (w, Ret v) → is_Some (trees w !! root_of b).
Proof.
  revert v. induction b as [t|p IH n ds]; intros v; simpl.
  - unfold tree_data. by destruct (trees w !! t).
  - intros H. apply bind_Ret in H as (dv & w1 & Hp & _).
    pose proof (data_world p w) as Hw. rewrite Hp in Hw. simpl in Hw. subst w1.
    by eapply IH.
Qed.

Section Paths.
Variable load : string -> outcome Node.

Lemma descend_resolves env names : ∀ cur w a,
  well_kept w (root_of cur) →
  Forall (λ s, is_private s = false) names →
  MemoryBranch__data (extend cur names) w = (w, Ret (VDict a)) →
  is_Some (heap w !! a) →
  ∃ w', descend load cur names env w = (w', Ret (Some (extend cur names)))
    ∧ same_data w w'.
Proof.
  induction names as [|n rest IH]; intros cur w a Hk Hpub Hdata Ha.
  - exists w. by split.
  - apply Forall_cons in Hpub as [Hn Hpub].
    change (extend cur (n :: rest)) with (extend (Branch cur n []) rest) in *.
    destruct (data_extend_inv _ _ _ _ Hdata) as (v1 & Hd1 & Hnil & Hcons).
    assert (∃ a1, v1 = VDict a1 ∧ is_Some (heap w !! a1)) as (a1 & -> & Ha1).
    { destruct rest as [|r rest]; [rewrite Hnil by done; eauto|].
      by apply Hcons. }
    assert (is_Some (trees w !! root_of cur)) as Ht.
    { by apply (data_Ret_tree (Branch cur n []) w (VDict a1)). }
    destruct (reload_kept load _ env _ Hk Ht) as (w1 & Hre & Hsd & _ & Hk1 & _).
    assert (MemoryBranch__data (Branch cur n []) w1 = (w1, Ret (VDict a1)))
      as Hd1'.
    { by rewrite (data_same_data _ w w1 Hsd), Hd1. }
    assert (heap w1 = heap w) as Hh by (by destruct Hsd as (? & _)).
    assert (MemoryBranch___getitem__ load cur n env w = (w1, Ret (VDict a1)))
      as Hget.
    { unfold MemoryBranch___getitem__. rewrite root_reload.
      rewrite (bind_run_Ret _ _ _ _ _ Hre). unfold except_KeyError, own_item.
      change (bind (MemoryBranch__data cur) (λ data, subscript data n))
        with (MemoryBranch__data (Branch cur n [])).
      by rewrite Hd1'. }
    destruct (IH (Branch cur n []) w1 a) as (w' & Hdesc & Hsd').
    + done.
    + done.
    + by rewrite (data_same_data _ w w1 Hsd), Hdata.
    + by rewrite Hh.
    + exists w'. split; [|by etrans].
      cbn [descend]. unfold MemoryBranch___getattribute__. rewrite Hn.
      erewrite bind_run_Ret; last first.
      { rewrite (bind_run_Ret _ _ _ _ _ Hget). cbn [isbranch].
        rewrite (bind_run_Ret _ _ _ _ _
                   (new_subbranch_run _ _ _ _ Hd1' ltac:(by rewrite Hh))).
        done. }
      done.
Qed.


End Paths.

(** ** Loading, continued *)

Lemma alloc_submapping items h :
  ∃ a, (alloc_node (Submapping items) h).2 = VDict a.
Proof.
  simpl.
  match goal with
  | |- context [(let '(_, _) := ?F items h [] in _)] => destruct (F items h [])
  end.
  by eexists.
Qed.

Section Reloads.
Variable load : string -> outcome Node.

(** [_load] of a document that is a mapping *)
Lemma load_mapping t env w T f fl items :
  trees w !! t = Some T →
  _filename T = Some f →
  fs w !! f = Some fl →
  load (content fl) = Ret (Submapping items) →
  MemoryTree__load load t env w
  = (World (alloc_node (Submapping items) (heap w)).1 (class_data w) (fs w)
       (<[t := with_lastreload (now env)
                 (with_mtime (mtime fl)
                    (with_data (alloc_node (Submapping items) (heap w)).2 T))]>
          (trees w)), Ret tt).
Proof.
  intros Ht Hf Hfl Hload. unfold MemoryTree__load.
  rewrite (bind_run_Ret _ _ w w T) by (unfold get_tree; by rewrite Ht).
  rewrite Hf.
  rewrite (bind_run_Ret _ _ w w (content fl))
    by (unfold read_file; by rewrite Hfl).
  rewrite Hload. unfold lift at 1, bind at 1.
  rewrite (bind_run_Ret _ _ _ _ _ (build_run _ w)).
  destruct (alloc_submapping items (heap w)) as [a Ha].
  set (h1 := (alloc_node (Submapping items) (heap w)).1) in *.
  rewrite Ha.
  repeat (progress (unfold_prims; simpl; rewrite ?Ht, ?Hfl; lookups)).
  done.
Qed.

(** [_load] of a document for which the backend returns [None] *)
Lemma load_none t env w T f fl :
  trees w !! t = Some T →
  _filename T = Some f →
  fs w !! f = Some fl →
  load (content fl) = Ret (Leaf SNone) →
  MemoryTree__load load t env w
  = (World (heap w ++ [[]]) (class_data w) (fs w)
       (<[t := with_data (VDict (length (heap w)))
                 (with_lastreload (now env)
                    (with_mtime (mtime fl) (with_data (VScalar SNone) T)))]>
          (trees w)), Ret tt).
Proof.
  intros Ht Hf Hfl Hload. unfold MemoryTree__load, build, new_dict, update_from.
  repeat (progress (unfold_prims; simpl;
            rewrite ?Ht, ?Hf, ?Hfl, ?Hload; lookups)).
  done.
Qed.



End Reloads.

(** ** Construction on a file *)

Section Construction.
Variable load : string -> outcome Node.
Variable user_config_dir default_config_dir : string.
Variable path_split : string -> string * string.
Variable path_join : string -> string -> string.

(** what [_load] does to the tree that [__init__] has set up *)
Lemma load_Ret_attributes t env w w' f :
  trees w !! t = Some (unloaded f env) →
  MemoryTree__load load t env w = (w', Ret tt) →
  ∃ fl v, fs w !! f = Some fl ∧ fs w' = fs w
    ∧ trees w' = <[t := with_data v (with_lastreload (now env)
                           (with_mtime (mtime fl) (unloaded f env)))]> (trees w)
    ∧ class_data w' = class_data w.
Proof.
  intros Ht. unfold MemoryTree__load.
  rewrite (bind_run_Ret _ _ w w _) by (unfold get_tree; by rewrite Ht).
  cbn [unloaded _filename].
  destruct (fs w !! f) as [fl|] eqn:Hfl; last first.
  { unfold bind at 1, read_file. by rewrite Hfl. }
  rewrite (bind_run_Ret _ _ w w (content fl))
    by (unfold read_file; by rewrite Hfl).
  destruct (load (content fl)) as [n|e]; [|done].
  unfold lift at 1, bind at 1.
  rewrite (bind_run_Ret _ _ _ _ _ (build_run _ w)).
  set (h1 := (alloc_node n (heap w)).1). set (v := (alloc_node n (heap w)).2).
  destruct (decide (v = VScalar SNone)) as [Hv|Hv].
  - repeat (progress (unfold_prims; unfold new_dict; simpl;
              rewrite ?Ht, ?Hfl; lookups)).
    try rewrite decide_True by done.
    repeat (progress (unfold_prims; unfold new_dict; simpl;
              rewrite ?Ht, ?Hfl; lookups)).
    intros [= <-]. exists fl, (VDict (length h1)). done.
  - repeat (progress (unfold_prims; simpl; rewrite ?Ht, ?Hfl; lookups)).
    try rewrite decide_False by done.
    repeat (progress (unfold_prims; simpl; rewrite ?Ht, ?Hfl; lookups)).
    intros Hup. exists fl, v.
    destruct (update_from v _) as [w2 [[]|e]] eqn:Hupd; [|done].
    apply update_from_world in Hupd as ->. by injection Hup as <-.
Qed.



End Construction.

(** ** The tree stays well kept *)

Lemma maintains_bind {A B} P (m : M A) (k : A → M B) :
  maintains P m → (∀ a, maintains P (k a)) → maintains P (bind m k).
Proof.
  intros Hm Hk w w' x HP Hrun.
  apply bind_Ret in Hrun as (a & w1 & Hm1 & Hk1).
  eapply Hk; [|done]. by eapply Hm.
Qed.

Lemma maintains_ret {A} P (a : A) : maintains P (ret a).
Proof. by intros w w' x HP [= <- <-]. Qed.

Lemma maintains_heap_only {A} t (m : M A) :
  keeps heap_only m → maintains (kept t) m.
Proof.
  intros Hm w w' x [Ht Hk] Hrun. destruct (Hm _ _ _ Hrun) as (Htr & Hfs & _).
  split; [by rewrite Htr|]. intros T f. rewrite Htr, Hfs. apply Hk.
Qed.

Section Invariant.
Variable load : string -> outcome Node.
Variable save : list pydict -> value -> outcome string.

Lemma maintains_save b env :
  maintains (kept (root_of b)) (MemoryBranch__save save b env).
Proof.
  intros w w' [] [Ht Hk]. rewrite root_save. intros Hrun. split.
  - by destruct (save_Ret_tree _ _ _ _ _ _ Hrun).
  - by eapply save_well_kept.
Qed.

Lemma maintains_setattr b name v env :
  maintains (kept (root_of b)) (MemoryBranch___setattr__ save b name v env).
Proof.
  unfold MemoryBranch___setattr__. destruct (is_private name).
  { apply maintains_ret. }
  apply maintains_bind; [apply maintains_heap_only, heap_only_data|].
  intros data.
  apply maintains_bind; [apply maintains_heap_only, heap_only_store|].
  intros _. apply maintains_save.
Qed.

Lemma maintains_setitem b item v env :
  maintains (kept (root_of b)) (MemoryBranch___setitem__ save b item v env).
Proof.
  unfold MemoryBranch___setitem__.
  apply maintains_bind; [apply maintains_heap_only, heap_only_data|].
  intros data.
  apply maintains_bind; [apply maintains_heap_only, heap_only_contains|].
  intros [].
  - apply maintains_setattr.
  - apply maintains_bind; [|intros _; apply maintains_save].
    apply maintains_heap_only. repeat heap_step.
Qed.

Lemma maintains_pop b name env :
  maintains (kept (root_of b)) (MemoryBranch__pop save b name env).
Proof.
  unfold MemoryBranch__pop.
  apply maintains_bind; [apply maintains_heap_only, heap_only_data|].
  intros data.
  apply maintains_bind; [apply maintains_heap_only, heap_only_pop|].
  intros v.
  apply maintains_bind; [apply maintains_save|]. intros _. apply maintains_ret.
Qed.


(** X21: A write, an item assignment, a bulk update or a removal through a
    branch whose data does not resolve raises the error of the lookup
    ([KeyError] for a branch that is absent from the tree); the store is
    as before, and no save is counted. *)
Theorem mutation_through_absent_branch_raises b op env w e :
  MemoryBranch__data b w = (w, Raise e) →
  match op with
  | write name _ => is_private name = false
  | create_or_overwrite _ _ | bulk_update _ | remove _ => True
  | _ => False
  end →
  perform load save b op env w = (w, Raise e).
Proof.
  intros Hdata Hop.
  destruct op as [name v|item v|new_dict|name|name| |yml]; try done; simpl.
  - unfold MemoryBranch___setattr__. rewrite Hop.
    by rewrite (bind_run_Raise _ _ _ _ _ Hdata).
  - unfold MemoryBranch___setitem__.
    by rewrite (bind_run_Raise _ _ _ _ _ Hdata).
  - unfold MemoryBranch__update.
    by rewrite (bind_run_Raise _ _ _ _ _ Hdata).
  - unfold MemoryBranch__pop.
    erewrite bind_run_Raise; [done|].
    by rewrite (bind_run_Raise _ _ _ _ _ Hdata).
Qed.

(** X26: [_get_yml] of the tree is what [_save_now] writes: after a
    [_save_now] that meets no failure, its file holds the text that
    [_get_yml] returned just before.  [_save_now] writes at once, also
    inside the debounce window, as long as the clock is not a second
    behind the last save, and it leaves no timer running. *)
Theorem save_now_writes_get_yml t env w T f ls mt tm s fl :
  trees w !! t = Some T →
  _filename T = Some f →
  _buffer_filename T = Some (f +:+ ".tmp")%string →
  _lastsave T = Some ls →
  _mtime T = Some mt →
  _savetimer T = Some tm →
  fs w !! f = Some fl →
  ls - 1000 < now env →
  fault env = None →
  MemoryBranch__get_yml save (Tree t) w = (w, Ret s) →
  ∃ w', MemoryTree__save_now save t env w = (w', Ret tt)
    ∧ fs w' !! f = Some (File s (now env))
    ∧ heap w' = heap w
    ∧ (∀ x, timeout_enabled t x w' = false)
    ∧ saves w' t = saves w t + 1.
Proof.
  intros Ht Hf Hbuf Hls Hmt Htm Hfl Hlt Hfault Hyml.
  unfold MemoryBranch__get_yml in Hyml. simpl in Hyml.
  destruct (tree_data_Some _ _ _ Ht) as [root Hroot].
  rewrite (bind_run_Ret _ _ _ _ _ Hroot) in Hyml.
  unfold bind, get_world, lift in Hyml.
  destruct (save (heap w) root) as [s'|e] eqn:Hdump; [|done].
  injection Hyml as <-.
  by eapply save_now_flush.
Qed.

End Invariant.

(** ** The merged view and attribute assignment *)

Lemma dict_get_update_NoDup d items k :
  NoDup items.*1 →
  dict_get (dict_update d items) k
  = match dict_get items k with Some v => Some v | None => dict_get d k end.
Proof. intros Hnd. by rewrite dict_get_update, dict_get_reverse. Qed.

Lemma own_dict_mapping w b d : own_dict w b = Some d → mapping_or_absent w b.
Proof.
  unfold own_dict, mapping_or_absent.
  destruct (MemoryBranch__data b w) as [w1 [[s|a]|e]]; try done.
  all: intros ->; by eexists.
Qed.

Lemma data_of_own_dict w b d :
  own_dict w b = Some d →
  ∃ a, MemoryBranch__data b w = (w, Ret (VDict a)) ∧ heap w !! a = Some d.
Proof.
  unfold own_dict. rewrite (data_run b w).
  destruct (MemoryBranch__data b w).2 as [[s|a]|e]; try done. eauto.
Qed.

Section MergedView.
Variable load : string -> outcome Node.
Variable save : list pydict -> value -> outcome string.


(** X12: Attribute assignment under a public name binds the name to the
    value itself, whether or not the branch held the name: no dict is
    copied, no object is added, and the other keys are as before. *)
Theorem setattr_binds_value_itself b name v env w w' ab d :
  is_private name = false →
  MemoryBranch__data b w = (w, Ret (VDict ab)) →
  heap w !! ab = Some d →
  ab ∉ visited w b →
  MemoryBranch___setattr__ save b name v env w = (w', Ret tt) →
  own_get w' b name = Some v
  ∧ (∀ k, k ≠ name → own_get w' b k = own_get w b k)
  ∧ heap w' = <[ab := dict_set d name v]> (heap w).
Proof.
  intros Hpub Hdata Hd Hanc Hrun. unfold MemoryBranch___setattr__ in Hrun.
  rewrite Hpub in Hrun. rewrite (bind_run_Ret _ _ _ _ _ Hdata) in Hrun.
  apply bind_Ret in Hrun as ([] & w1 & Hst & Hsave).
  revert Hst. unfold store. rewrite Hd. intros [= <-].
  destruct (rewritten_and_saved save _ _ _ _ _ _ _ Hdata Hanc
              ltac:(intros x dx Hne Hx; by rewrite list_lookup_insert_ne) Hsave)
    as (Hdata' & Hheap & _).
  assert (heap w' !! ab = Some (dict_set d name v)) as Hd'.
  { rewrite Hheap. apply list_lookup_insert_eq. by eapply lookup_lt_Some. }
  split; [|split; [|done]].
  - rewrite (own_get_at w' _ ab _ _ Hdata' Hd'). apply dict_get_set_eq.
  - intros k Hne. rewrite (own_get_at w' _ ab _ _ Hdata' Hd').
    rewrite (own_get_at w _ ab _ _ Hdata Hd). by apply dict_get_set_ne.
Qed.

End MergedView.

(** * The methods on concrete stores *)

Import Sample.

(** C1 at a save of tree 0 whose [os.rename] fails *)
Lemma atomic_save_failure_witness :
  (∃ e, failed_save.2 = Raise e)
  ∧ content <$> fs failed_save.1 !! "user/c.yml"%string
    = Some "{a: {x: 1}}"%string
  ∧ content <$> fs failed_save.1 !! "user/c.yml.bak"%string
    = Some "{a: {x: 1}}"%string.
Proof.
  apply (atomic_save_failure save on_file 0%nat tree_on_file
           "user/c.yml"%string "{a: {x: 1}}"%string 5 10 5 None
           (MkEnv 5000 (Some FailRename)) failed_save.1 failed_save.2
           (VDict 2%nat)).
  - reflexivity.
  - reflexivity.
  - reflexivity.
  - reflexivity.
  - reflexivity.
  - reflexivity.
  - reflexivity.
  - simpl. lia.
  - left. by eexists.
  - apply surjective_pairing.
Defined.




(** C4, counterexample: the backend raises on the cut-short file, and so
    do [_load] and [__init__]; the root is not replaced by an empty
    mapping. *)
Lemma load_malformed_raises :
  load (content (File "{a: {x: 1" 20)) = Raise YAMLError
  ∧ MemoryTree__load load 0%nat (at_ 30) tampered = (tampered, Raise YAMLError)
  ∧ (init (Some "c"%string) None (at_ 10)
       (boot {[ "user/c.yml"%string := File "{a: {x: 1" 5 ]})).2
    = Raise YAMLError.
Proof. repeat split; reflexivity. Qed.

(** C4, amended, at the cut-short file *)
Lemma load_malformed_or_empty_witness :
  (∀ e, load "{a: {x: 1" = Raise e →
        MemoryTree__load load 0%nat (at_ 30) tampered = (tampered, Raise e))
  ∧ (load "{a: {x: 1" = Ret (Leaf SNone) →
     ∃ w', MemoryTree__load load 0%nat (at_ 30) tampered = (w', Ret tt)
       ∧ tree_data 0%nat w' = (w', Ret (VDict (length (heap tampered))))
       ∧ heap w' = heap tampered ++ [[]]
       ∧ fs w' = fs tampered).
Proof.
  apply (load_malformed_or_empty load tampered 0%nat tree_on_file
           "user/c.yml"%string (File "{a: {x: 1" 20) (at_ 30)).
  - reflexivity.
  - reflexivity.
  - reflexivity.
Defined.

(** an emptied file does load, as an empty mapping *)
Example load_empty_file :
  ∃ w', MemoryTree__load load 0%nat (at_ 30) emptied = (w', Ret tt)
    ∧ own_dict w' (Tree 0%nat) = Some [].
Proof. eexists. split; vm_compute; reflexivity. Qed.

(** C5, counterexample: renaming branch [a] calls [_save] three times. *)
Lemma rename_saves_three_times :
  MemoryBranch__rename save branch_a "b" (at_ 20) on_file
  = (after_rename, Ret tt)
  ∧ saves on_file 0%nat = 0
  ∧ saves after_rename 0%nat = 3
  ∧ saves after_rename 0%nat ≠ saves on_file 0%nat + 1.
Proof.
  split; [vm_compute; reflexivity|].
  split; [vm_compute; reflexivity|].
  split; [vm_compute; reflexivity|].
  vm_compute. intros [=].
Qed.

(** C5, amended, at the rename of branch [a] *)
Lemma save_calls_of_mutations_witness :
  saves after_rename (root_of branch_a)
  = saves on_file (root_of branch_a) + save_calls (rename_to "b").
Proof.
  apply (save_calls_of_mutations load save branch_a (rename_to "b") (at_ 20)
           on_file after_rename).
  - intros k [= <-]. reflexivity.
  - vm_compute. reflexivity.
Defined.



(** the timer fires at 3020: one write, of the root as the burst left it *)
Example burst_is_flushed_once :
  ∃ w2, timeout save 0%nat (at_ 3020) after_burst = (w2, Ret tt)
    ∧ fs w2 !! "user/c.yml"%string
      = Some (File "{a: {x: 1, y: 2, z: 3}}" 3020)
    ∧ fs w2 !! "user/c.yml.tmp"%string = None
    ∧ timeout_enabled 0%nat 10000 w2 = false.
Proof. eexists. repeat split; vm_compute; reflexivity. Qed.

(** C7, counterexample: last save at 10, deadtime 3 s, [_save] at 2010.
    The remaining time is 1000 ms, but the timer cannot fire at 3010, nor
    before 5010 = 2010 + 3000. *)
Lemma deferred_save_not_after_remaining_time :
  ∃ w', MemoryTree__save save 0%nat None (at_ 2010) on_file = (w', Ret tt)
    ∧ _lastsave tree_on_file = Some 10
    ∧ timeout_enabled 0%nat ((10 + 3 * 1000 - 2010) + 2010) w' = false
    ∧ timeout_enabled 0%nat 5009 w' = false
    ∧ timeout_enabled 0%nat 5010 w' = true.
Proof. eexists. repeat split; vm_compute; reflexivity. Qed.

(** C7, amended, at a save at 2010 after a save at 10 *)
Lemma deferred_save_is_scheduled_witness :
  ∃ w', MemoryTree__save save 0%nat None (at_ 2010) on_file = (w', Ret tt)
    ∧ fs w' = fs on_file
    ∧ (∀ x, timeout_enabled 0%nat x w' = bool_decide (2010 + 3000 ≤ x))
    ∧ (∀ env', timeout save 0%nat env' w'
               = MemoryTree__save save 0%nat None env' (disarmed 0%nat w'))
    ∧ (∀ x, timeout_enabled 0%nat x (disarmed 0%nat w') = false).
Proof.
  apply (deferred_save_is_scheduled save 0%nat None (at_ 2010) on_file
           tree_on_file "user/c.yml"%string 10 (Timer 3000 true None)).
  - reflexivity.
  - reflexivity.
  - reflexivity.
  - reflexivity.
  - reflexivity.
  - reflexivity.
  - simpl. lia.
Defined.

(** C8: assigning a dict [v] under a key the branch already has stores
    [v] itself: mutating [v] afterwards changes what the branch holds. *)
Theorem overwrite_stores_shared_reference :
  MemoryBranch___setitem__ save (Tree 0%nat) "k" (VDict 1%nat) (at_ 30)
    before_overwrite = (after_overwrite, Ret tt)
  ∧ heap before_overwrite !! 1%nat = Some [("x"%string, VScalar (SInt 1))]
  ∧ own_get before_overwrite (Tree 0%nat) "k" = Some (VScalar (SInt 1))
  ∧ own_get after_overwrite (Tree 0%nat) "k" = Some (VDict 1%nat)
  ∧ own_get after_overwrite (Branch (Tree 0%nat) "k" []) "x"
    = Some (VScalar (SInt 1))
  ∧ store (VDict 1%nat) "x" (VScalar (SInt 2)) after_overwrite
    = (after_mutation, Ret tt)
  ∧ own_get after_mutation (Branch (Tree 0%nat) "k" []) "x"
    = Some (VScalar (SInt 2)).
Proof. repeat split; reflexivity. Qed.

(** the sibling path: a new key receives a copy, which a later mutation
    of [v] leaves alone *)
Example insert_stores_copy :
  own_get after_insert_and_mutation (Tree 0%nat) "n" = Some (VDict 2%nat)
  ∧ heap after_insert_and_mutation !! 1%nat
    = Some [("x"%string, VScalar (SInt 2))]
  ∧ own_get after_insert_and_mutation (Branch (Tree 0%nat) "n" []) "x"
    = Some (VScalar (SInt 1)).
Proof. repeat split; reflexivity. Qed.

(** C9: two trees constructed without file name have the same root, the
    class attribute [MemoryTree._data]: an assignment through the first
    shows in the second. *)
Theorem in_memory_trees_share_root :
  init None None (at_ 10) (boot ∅) = (in_memory, Ret 0%nat)
  ∧ init None None (at_ 11) in_memory = (two_trees, Ret 1%nat)
  ∧ tree_data 0%nat two_trees = (two_trees, Ret (class_data two_trees))
  ∧ tree_data 1%nat two_trees = (two_trees, Ret (class_data two_trees))
  ∧ own_dict two_trees (Tree 1%nat) = Some []
  ∧ ∃ w', MemoryBranch___setitem__ save (Tree 0%nat) "a" (VScalar (SInt 1))
            (at_ 20) two_trees = (w', Ret tt)
      ∧ own_dict w' (Tree 1%nat) = Some [("a"%string, VScalar (SInt 1))].
Proof.
  repeat split; try reflexivity.
  eexists. split; vm_compute; reflexivity.
Qed.


(** ** Further runs *)

(** a closed fact about keys or addresses, decided by evaluation *)
Ltac keys_differ := apply (bool_decide_unpack _); vm_compute; reflexivity.

(** X24 at a save at 5000 of tree 0, whose file is gone *)
Lemma save_of_missing_file_raises_witness :
  ∃ w', MemoryTree__save save 0%nat None (at_ 5000) deleted = (w', Raise OSError)
    ∧ fs w' = fs deleted ∧ heap w' = heap deleted
    ∧ trees w' !! 0%nat
      = Some (with_lastsave (now (at_ 5000))
                (with_save_counter (_save_counter tree_on_file + 1) tree_on_file)).
Proof.
  apply (save_of_missing_file_raises save 0%nat None (at_ 5000) deleted
           tree_on_file "user/c.yml"%string 10 5).
  - reflexivity.
  - reflexivity.
  - reflexivity.
  - reflexivity.
  - vm_compute. reflexivity.
  - simpl. lia.
Defined.

(** X23 at a save at 5000 of tree 0 *)
Lemma save_writes_and_keeps_backup_witness :
  ∃ w' T', MemoryTree__save save 0%nat None (at_ 5000) on_file = (w', Ret tt)
    ∧ fs w' !! "user/c.yml"%string = Some (File "{a: {x: 1}}" 5000)
    ∧ fs w' !! "user/c.yml.bak"%string = Some (File "{a: {x: 1}}" 5000)
    ∧ fs w' !! "user/c.yml.tmp"%string = None
    ∧ heap w' = heap on_file
    ∧ trees w' !! 0%nat = Some T'
    ∧ _lastsave T' = Some 5000 ∧ _mtime T' = Some 5000
    ∧ _save_counter T' = _save_counter tree_on_file + 1.
Proof.
  apply (save_writes_and_keeps_backup save 0%nat None (at_ 5000) on_file
           tree_on_file "user/c.yml"%string 10 5 (VDict 2%nat)
           "{a: {x: 1}}"%string (File "{a: {x: 1}}" 5)).
  - reflexivity.
  - reflexivity.
  - reflexivity.
  - reflexivity.
  - reflexivity.
  - vm_compute. reflexivity.
  - simpl. lia.
  - reflexivity.
  - reflexivity.
  - vm_compute. reflexivity.
Defined.

(** X25 after a save at 5000 of tree 0 *)
Lemma reload_after_save_loads_nothing_witness :
  MemoryTree__save save 0%nat None (at_ 5000) on_file = (after_save, Ret tt)
  ∧ ∀ env', ∃ w'', MemoryTree__reload load 0%nat env' after_save = (w'', Ret tt)
                   ∧ same_data on_file w'' ∧ fs w'' = fs after_save.
Proof.
  split; [vm_compute; reflexivity|].
  apply (reload_after_save_loads_nothing load save 0%nat None (at_ 5000)
           on_file after_save).
  - intros T f [= <-] [= <-]. vm_compute. eauto 10.
  - vm_compute. reflexivity.
Defined.

(** X26 at [tree._save_now()] at 40, while the timer started by the burst is running *)
Lemma save_now_writes_get_yml_witness :
  ∃ w', MemoryTree__save_now save 0%nat (at_ 40) after_burst = (w', Ret tt)
    ∧ fs w' !! "user/c.yml"%string
      = Some (File "{a: {x: 1, y: 2, z: 3}}" (now (at_ 40)))
    ∧ heap w' = heap after_burst
    ∧ (∀ x, timeout_enabled 0%nat x w' = false)
    ∧ saves w' 0%nat = saves after_burst 0%nat + 1.
Proof.
  apply (save_now_writes_get_yml save 0%nat (at_ 40) after_burst
           tree_after_burst "user/c.yml"%string 10 5 (Timer 3000 true (Some 20))
           "{a: {x: 1, y: 2, z: 3}}"%string (File "{a: {x: 1}}" 5)).
  - vm_compute. reflexivity.
  - reflexivity.
  - reflexivity.
  - reflexivity.
  - reflexivity.
  - reflexivity.
  - vm_compute. reflexivity.
  - simpl. lia.
  - reflexivity.
  - vm_compute. reflexivity.
Defined.

(** X15 at [tree.a._pop("x")] *)
Lemma pop_removes_key_witness :
  own_get on_file branch_a "x" = Some (VScalar (SInt 1))
  ∧ ∀ k, own_get after_pop branch_a k
         = if decide (k = "x"%string) then None else own_get on_file branch_a k.
Proof.
  apply (pop_removes_key save branch_a "x" (at_ 20) on_file after_pop
           (VScalar (SInt 1)) 1%nat [("x"%string, VScalar (SInt 1))]).
  - reflexivity.
  - reflexivity.
  - keys_differ.
  - keys_differ.
  - vm_compute. reflexivity.
Defined.

(** X16 at [tree.a._pop("zz")] *)
Lemma pop_of_missing_key_raises_witness :
  MemoryBranch__pop save branch_a "zz" (at_ 20) on_file
  = (on_file, Raise KeyError).
Proof.
  apply (pop_of_missing_key_raises save branch_a "zz" (at_ 20) on_file).
  - vm_compute. eauto.
  - reflexivity.
Defined.

(** X17 at [tree._erase()] and [tree._rename("t")] *)
Lemma erase_of_missing_branch_raises_witness :
  MemoryBranch__erase save (Tree 0%nat) (at_ 20) on_file
  = (on_file, Raise KeyError)
  ∧ MemoryBranch__rename save (Tree 0%nat) "t" (at_ 20) on_file
    = (on_file, Raise KeyError).
Proof.
  apply (erase_of_missing_branch_raises save (Tree 0%nat) "t" (at_ 20) on_file).
  - vm_compute. eauto.
  - reflexivity.
Defined.

(** X18 at [tree.a._erase()] *)
Lemma erase_removes_branch_witness :
  MemoryBranch__data branch_a after_erase = (after_erase, Raise KeyError)
  ∧ ∀ k, k ≠ "a"%string →
         own_get after_erase (Tree 0%nat) k = own_get on_file (Tree 0%nat) k.
Proof.
  apply (erase_removes_branch save (Tree 0%nat) "a" [] (at_ 20) on_file
           after_erase 2%nat [("a"%string, VDict 1%nat)]).
  - reflexivity.
  - reflexivity.
  - keys_differ.
  - keys_differ.
  - vm_compute. reflexivity.
Defined.


(** X20 at [tree.a._set_yml("{}")] *)
Lemma set_yml_replaces_branch_witness :
  own_get after_import (parent_of branch_a) (name_of branch_a)
  = Some (alloc_node (Submapping []) (heap on_file)).2
  ∧ (∀ k, k ≠ name_of branch_a →
          own_get after_import (parent_of branch_a) k
          = own_get on_file (parent_of branch_a) k)
  ∧ heap after_import
    = <[2%nat := dict_set [("a"%string, VDict 1%nat)] (name_of branch_a)
                   (alloc_node (Submapping []) (heap on_file)).2]>
        (alloc_node (Submapping []) (heap on_file)).1.
Proof.
  apply (set_yml_replaces_branch load save branch_a "{}" (at_ 20) on_file
           after_import (Submapping []) 2%nat [("a"%string, VDict 1%nat)]).
  - reflexivity.
  - reflexivity.
  - reflexivity.
  - keys_differ.
  - vm_compute. reflexivity.
Defined.

(** X19 at [tree.a._rename("b")] *)
Lemma rename_moves_branch_witness :
  ∃ x, equal_to (heap on_file) (VDict 1%nat) (heap after_rename) x
    ∧ (∀ k, own_get after_rename (Tree 0%nat) k
            = if decide (k = "b"%string) then Some x
              else if decide (k = "a"%string) then None
                   else own_get on_file (Tree 0%nat) k)
    ∧ ("b"%string ≠ "a"%string →
       MemoryBranch__data branch_a after_rename = (after_rename, Raise KeyError)).
Proof.
  apply (rename_moves_branch save (Tree 0%nat) "a" [] "b" (at_ 20) on_file
           after_rename 2%nat [("a"%string, VDict 1%nat)] (VDict 1%nat)).
  - reflexivity.
  - reflexivity.
  - reflexivity.
  - keys_differ.
  - keys_differ.
  - reflexivity.
  - keys_differ.
  - vm_compute. reflexivity.
Defined.


(** X12 at [tree.a.y = 2] *)
Lemma setattr_binds_value_itself_witness :
  own_get after_setattr branch_a "y" = Some (VScalar (SInt 2))
  ∧ (∀ k, k ≠ "y"%string →
          own_get after_setattr branch_a k = own_get on_file branch_a k)
  ∧ heap after_setattr
    = <[1%nat := dict_set [("x"%string, VScalar (SInt 1))] "y" (VScalar (SInt 2))]>
        (heap on_file).
Proof.
  apply (setattr_binds_value_itself save branch_a "y" (VScalar (SInt 2))
           (at_ 20) on_file after_setattr 1%nat [("x"%string, VScalar (SInt 1))]).
  - reflexivity.
  - reflexivity.
  - reflexivity.
  - keys_differ.
  - vm_compute. reflexivity.
Defined.












(** X21 at [tree.zz["k"] = 1], no branch [zz] in the tree *)
Lemma mutation_through_absent_branch_raises_witness :
  perform load save (Branch (Tree 0%nat) "zz" [])
    (create_or_overwrite "k" (VScalar (SInt 1))) (at_ 20) on_file
  = (on_file, Raise KeyError).
Proof.
  apply (mutation_through_absent_branch_raises load save
           (Branch (Tree 0%nat) "zz" [])
           (create_or_overwrite "k" (VScalar (SInt 1))) (at_ 20) on_file
           KeyError).
  - reflexivity.
  - exact I.
Defined.

